(** * server.js: the request-validation-and-persistence pipeline

    A shallow embedding of the four mutation endpoints of [src/server.js]
    (POST, PATCH and PUT on [/api/company], DELETE on [/api/customers]), of
    the validation chains they declare, and of the statements they send
    through the pooled connection.

    A string is held as the bytes of its UTF-8 encoding, and lengths are
    counted in characters; a body or path field is a string or absent
    ([undefined]), a JSON body being read as a map from field names to
    strings. *)

From Stdlib Require Import String Ascii List Bool Arith Lia.
From stdpp Require Import gmap strings list.

Import ListNotations.
Local Open Scope string_scope.
Local Open Scope list_scope.

(** ** validator.js: the string functions behind the chains *)

Module Validator.

(** A string of JavaScript is held as the bytes of its UTF-8 encoding. *)
Definition byte (a : ascii) : nat := nat_of_ascii a.

(** The white-space class [\s] of a JavaScript regular expression.  Its
    members of one byte are the space and the controls 9 to 13. *)
Definition is_space (a : ascii) : bool :=
  let n := nat_of_ascii a in
  Nat.eqb n 32 || (Nat.leb 9 n && Nat.leb n 13).

(** Its member of two bytes is the no-break space U+00A0. *)
Definition is_space2 (a b : ascii) : bool :=
  Nat.eqb (byte a) 194 && Nat.eqb (byte b) 160.

(** Its members of three bytes are U+1680, U+2000 to U+200A, U+2028,
    U+2029, U+202F, U+205F, U+3000 and U+FEFF. *)
Definition is_space3 (a b c : ascii) : bool :=
  (Nat.eqb (byte a) 225 && Nat.eqb (byte b) 154 && Nat.eqb (byte c) 128)
  || (Nat.eqb (byte a) 226 && Nat.eqb (byte b) 128
      && ((Nat.leb 128 (byte c) && Nat.leb (byte c) 138)
          || Nat.eqb (byte c) 168 || Nat.eqb (byte c) 169 || Nat.eqb (byte c) 175))
  || (Nat.eqb (byte a) 226 && Nat.eqb (byte b) 129 && Nat.eqb (byte c) 159)
  || (Nat.eqb (byte a) 227 && Nat.eqb (byte b) 128 && Nat.eqb (byte c) 128)
  || (Nat.eqb (byte a) 239 && Nat.eqb (byte b) 187 && Nat.eqb (byte c) 191).

(** [ltrim] drops the white-space characters a string starts with. *)
Fixpoint ltrim (s : string) : string :=
  match s with
  | String a r =>
      if is_space a then ltrim r
      else match r with
           | String b r' =>
               if is_space2 a b then ltrim r'
               else match r' with
                    | String c r'' => if is_space3 a b c then ltrim r'' else s
                    | EmptyString => s
                    end
           | EmptyString => s
           end
  | EmptyString => EmptyString
  end.

(** A string of white space only. *)
Definition blank (s : string) : bool :=
  match ltrim s with
  | EmptyString => true
  | _ => false
  end.

(** [rtrim] walks back from the last index while it reads white space:
    it keeps a string up to its last character that is not white space. *)
Fixpoint rtrim (s : string) : string :=
  match s with
  | String a r => if blank s then EmptyString else String a (rtrim r)
  | EmptyString => EmptyString
  end.

Definition trim (s : string) : string := rtrim (ltrim s).

(** [escape] replaces the ampersand, both quotes, the angle brackets, the
    slash, the backslash and the backtick by HTML entities. *)
Definition escape_char (a : ascii) : string :=
  let n := nat_of_ascii a in
  if Nat.eqb n 38 then "&amp;"
  else if Nat.eqb n 34 then "&quot;"
  else if Nat.eqb n 39 then "&#x27;"
  else if Nat.eqb n 60 then "&lt;"
  else if Nat.eqb n 62 then "&gt;"
  else if Nat.eqb n 47 then "&#x2F;"
  else if Nat.eqb n 92 then "&#x5C;"
  else if Nat.eqb n 96 then "&#96;"
  else String a EmptyString.

Fixpoint escape (s : string) : string :=
  match s with
  | String a s' => escape_char a +:+ escape s'
  | EmptyString => EmptyString
  end.

(** The code points of a string: the bytes that do not continue a
    sequence.  A pair of surrogates of JavaScript is one code point. *)
Definition continuation (a : ascii) : bool :=
  Nat.leb 128 (byte a) && Nat.leb (byte a) 191.

Fixpoint code_points (s : string) : nat :=
  match s with
  | String a r => (if continuation a then 0 else 1) + code_points r
  | EmptyString => 0
  end.

(** The variation selectors U+FE0E and U+FE0F in a string. *)
Definition selector_at (s : string) : bool :=
  match s with
  | String a (String b (String c _)) =>
      Nat.eqb (byte a) 239 && Nat.eqb (byte b) 184
      && (Nat.eqb (byte c) 142 || Nat.eqb (byte c) 143)
  | _ => false
  end.

Fixpoint selectors (s : string) : nat :=
  match s with
  | String a r => (if selector_at s then 1 else 0) + selectors r
  | EmptyString => 0
  end.

(** The length [isLength] measures: the units of the string less its
    pairs of surrogates and its variation selectors, which is the number of
    its code points that are not variation selectors. *)
Definition characters (s : string) : nat := code_points s - selectors s.

(** [isLength(str, {min, max})]. *)
Definition isLength (min max : nat) (s : string) : bool :=
  Nat.leb min (characters s) && Nat.leb (characters s) max.

End Validator.

(** ** express-validator: chains, their run over a request, the result *)

Module ExpressValidator.

Inductive Location := Body | Params.

(** What a handler reads of [req]: [req.params] and [req.body]. *)
Record Request := mkRequest {
  params : gmap string string;
  body : gmap string string
}.

Definition field_of (req : Request) (loc : Location) (name : string)
  : option string :=
  match loc with
  | Params => params req !! name
  | Body => body req !! name
  end.

Definition set_field (req : Request) (loc : Location) (name v : string)
  : Request :=
  match loc with
  | Params => mkRequest (<[name := v]> (params req)) (body req)
  | Body => mkRequest (params req) (<[name := v]> (body req))
  end.

(** Standard validators and sanitizers are handed [toString(value)]:
    an absent value reads as the empty string. *)
Definition toString (v : option string) : string :=
  match v with
  | Some s => s
  | None => EmptyString
  end.

Inductive Item :=
| Sanitizer (f : string -> string)
| StandardValidator (check : string -> bool) (message : string).

Record Chain := mkChain {
  chain_location : Location;
  chain_field : string;
  chain_stack : list Item
}.

(** An entry of [validationResult(req).array()]. *)
Record ValidationError := mkError {
  location : Location;
  path : string;
  msg : string;
  value : option string
}.

Definition default_message : string := "Invalid value".

(** *** The fluent interface *)

Definition body_ (name : string) : Chain := mkChain Body name [].
Definition param (name : string) : Chain := mkChain Params name [].

Definition add_item (i : Item) (c : Chain) : Chain :=
  mkChain (chain_location c) (chain_field c) (chain_stack c ++ [i]).

Definition trim : Chain -> Chain := add_item (Sanitizer Validator.trim).
Definition escape : Chain -> Chain := add_item (Sanitizer Validator.escape).
Definition isLength (min max : nat) : Chain -> Chain :=
  add_item (StandardValidator (Validator.isLength min max) default_message).

(** [withMessage] sets the message of the validator added last, whatever
    sanitizers were added after it. *)
Fixpoint set_last_message (m : string) (stack : list Item) : list Item * bool :=
  match stack with
  | [] => ([], false)
  | i :: rest =>
      let (rest', found) := set_last_message m rest in
      if found then (i :: rest', true)
      else match i with
           | StandardValidator check _ => (StandardValidator check m :: rest', true)
           | Sanitizer _ => (i :: rest', false)
           end
  end.

Definition withMessage (m : string) (c : Chain) : Chain :=
  mkChain (chain_location c) (chain_field c)
          (fst (set_last_message m (chain_stack c))).

(** *** Running a chain *)

(** The items run in order on the field's current value: a sanitizer
    replaces it, a validator that fails records an error and the run goes
    on (no chain here bails). *)
Fixpoint run_items (loc : Location) (name : string) (stack : list Item)
  (v : option string) : option string * list ValidationError :=
  match stack with
  | [] => (v, [])
  | Sanitizer f :: rest => run_items loc name rest (Some (f (toString v)))
  | StandardValidator check m :: rest =>
      let (v', errs) := run_items loc name rest v in
      if check (toString v) then (v', errs)
      else (v', mkError loc name m v :: errs)
  end.

(** The sanitized value is written back to the request when it differs
    from what the request held. *)
Definition run_chain (c : Chain) (req : Request)
  : Request * list ValidationError :=
  let old := field_of req (chain_location c) (chain_field c) in
  let (new, errs) := run_items (chain_location c) (chain_field c) (chain_stack c) old in
  match new with
  | Some s =>
      if decide (old = Some s) then (req, errs)
      else (set_field req (chain_location c) (chain_field c) s, errs)
  | None => (req, errs)
  end.

(** The chains of a route run as middlewares, one after the other; their
    errors accumulate on the request in that order. *)
Fixpoint run_chains (cs : list Chain) (req : Request)
  : Request * list ValidationError :=
  match cs with
  | [] => (req, [])
  | c :: rest =>
      let (req1, e1) := run_chain c req in
      let (req2, e2) := run_chains rest req1 in
      (req2, e1 ++ e2)
  end.

Definition isEmpty (errors : list ValidationError) : bool :=
  match errors with
  | [] => true
  | _ => false
  end.

#[global] Instance Location_eq_dec : EqDecision Location.
Proof. solve_decision. Defined.

(** The field a chain reads and writes. *)
Definition key (c : Chain) : Location * string :=
  (chain_location c, chain_field c).

(** A chain's rule fails on a request when the chain, run on its own,
    records an error. *)
Definition rule_fails (c : Chain) (req : Request) : bool :=
  negb (isEmpty (snd (run_chain c req))).

Fixpoint validators (stack : list Item) : nat :=
  match stack with
  | [] => 0
  | Sanitizer _ :: rest => validators rest
  | StandardValidator _ _ :: rest => S (validators rest)
  end.

End ExpressValidator.

Notation "c '|>' f" := (f c) (at level 45, left associativity, only parsing).

(** ** The pooled connection and the effects of a handler *)

Module Runtime.
Import ExpressValidator.

(** The result object of a data-changing statement. *)
Record QueryResult := mkResult {
  affectedRows : nat;
  warningStatus : nat
}.

(** The store behind [connection.query(sql, values)]: it either rejects
    with an error or resolves with a result, and moves to a new state.
    A bound value is a string or [undefined]. *)
Class Driver (DB : Type) := {
  execute : string -> list (option string) -> DB -> (string + QueryResult) * DB
}.

(** The three JSON bodies the handlers send. *)
Inductive Json :=
| Message (message : string)
| Error (error : string)
| Errors (errors : list ValidationError).

Record Response := mkResponse {
  status : nat;
  json : Json
}.

(** One call of [connection.query]: the text, the bound values and how
    the store answered. *)
Record Interaction := mkInteraction {
  sql : string;
  values : list (option string);
  outcome : string + QueryResult
}.

(** What a handler can observe or change: the store, whether the pool can
    lease a connection, the connections acquired and released so far, the
    statements executed, the responses sent and the console. *)
Record World (DB : Type) := mkWorld {
  store : DB;
  pool_available : bool;
  acquired : nat;
  released : nat;
  executed : list Interaction;
  sent : list Response;
  console : list string
}.
Arguments mkWorld {DB}.
Arguments store {DB}.
Arguments pool_available {DB}.
Arguments acquired {DB}.
Arguments released {DB}.
Arguments executed {DB}.
Arguments sent {DB}.
Arguments console {DB}.

(** An async function body completes normally or throws. *)
Inductive Completion (A : Type) :=
| Normal (a : A)
| Throw (e : string).
Arguments Normal {A}.
Arguments Throw {A}.

Definition M (DB A : Type) : Type := World DB -> Completion A * World DB.

Section Effects.
Context {DB : Type} `{Driver DB}.

Definition ret {A} (a : A) : M DB A := fun w => (Normal a, w).

Definition bind {A B} (m : M DB A) (k : A -> M DB B) : M DB B :=
  fun w =>
    match m w with
    | (Normal a, w') => k a w'
    | (Throw e, w') => (Throw e, w')
    end.

Definition throw {A} (e : string) : M DB A := fun w => (Throw e, w).

(** [try { body } catch (err) { handler }]. *)
Definition try_catch {A} (body : M DB A) (handler : string -> M DB A) : M DB A :=
  fun w =>
    match body w with
    | (Normal a, w') => (Normal a, w')
    | (Throw e, w') => handler e w'
    end.

(** [try { body } catch (err) { handler } finally { fin }]: [fin] runs
    whatever the completion of the guarded part, which is kept unless
    [fin] itself throws. *)
Definition try_catch_finally {A} (body : M DB A) (handler : string -> M DB A)
  (fin : M DB unit) : M DB A :=
  fun w =>
    let (c, w1) := try_catch body handler w in
    match fin w1 with
    | (Normal _, w2) => (c, w2)
    | (Throw e, w2) => (Throw e, w2)
    end.

Definition console_error (line : string) : M DB unit :=
  fun w => (Normal tt,
            mkWorld (store w) (pool_available w) (acquired w) (released w)
                    (executed w) (sent w) (console w ++ [line])).

(** [pool.getConnection()]. *)
Definition pool_getConnection : M DB unit :=
  fun w =>
    if pool_available w
    then (Normal tt,
          mkWorld (store w) (pool_available w) (S (acquired w)) (released w)
                  (executed w) (sent w) (console w))
    else (Throw "retrieve connection from pool timeout", w).

(** [connection.release()]. *)
Definition release : M DB unit :=
  fun w => (Normal tt,
            mkWorld (store w) (pool_available w) (acquired w) (S (released w))
                    (executed w) (sent w) (console w)).

(** [connection.query(sql, values)]. *)
Definition query (text : string) (bound : list (option string)) : M DB QueryResult :=
  fun w =>
    let (r, s') := execute text bound (store w) in
    let w' := mkWorld s' (pool_available w) (acquired w) (released w)
                      (executed w ++ [mkInteraction text bound r]) (sent w) (console w) in
    match r with
    | inl err => (Throw err, w')
    | inr result => (Normal result, w')
    end.

(** [res.status(code).json(payload)]; [res.json(payload)] is status 200. *)
Definition res_status_json (code : nat) (payload : Json) : M DB unit :=
  fun w => (Normal tt,
            mkWorld (store w) (pool_available w) (acquired w) (released w)
                    (executed w) (sent w ++ [mkResponse code payload]) (console w)).

Definition res_json (payload : Json) : M DB unit := res_status_json 200 payload.

End Effects.

End Runtime.

Notation "x <- c1 ;; c2" := (Runtime.bind c1 (fun x => c2))
  (at level 100, c1 at next level, right associativity, only parsing).
Notation "c1 ;; c2" := (Runtime.bind c1 (fun _ => c2))
  (at level 100, right associativity, only parsing).

(** ** server.js: the routes *)

Module Server.
Import ExpressValidator Runtime.

(** JavaScript truthiness of a field: [undefined] and the empty string are
    falsy, every other string is truthy. *)
Definition truthy (v : option string) : bool :=
  match v with
  | Some (String _ _) => true
  | _ => false
  end.

(** Whether a field was supplied at all. *)
Definition present (v : option string) : bool :=
  match v with
  | Some _ => true
  | None => false
  end.

(** A field that went through validation is absent or a non-empty string. *)
Definition validated (v : option string) : Prop := present v = truthy v.

(** The statement of the partial update and its bound values, as the
    PATCH handler assembles them (updateFields, values, query). *)
Definition patch_statement (companyId companyName companyCity : option string)
  : string * list (option string) :=
  let updateFields : list string := [] in
  let values : list (option string) := [] in
  let '(updateFields, values) :=
    if truthy companyName
    then (updateFields ++ ["COMPANY_NAME = ?"], values ++ [companyName])
    else (updateFields, values) in
  let '(updateFields, values) :=
    if truthy companyCity
    then (updateFields ++ ["COMPANY_CITY = ?"], values ++ [companyCity])
    else (updateFields, values) in
  let query :=
    "UPDATE company SET " +:+ String.concat ", " updateFields +:+ " WHERE COMPANY_ID = ?" in
  let values := values ++ [companyId] in
  (query, values).

Definition insert_sql : string :=
  "INSERT INTO company (COMPANY_ID, COMPANY_NAME, COMPANY_CITY) VALUES (?, ?, ?)".

Definition upsert_sql : string :=
  "INSERT INTO company (COMPANY_ID, COMPANY_NAME, COMPANY_CITY) VALUES (?, ?, ?) ON DUPLICATE KEY UPDATE COMPANY_NAME = ?, COMPANY_CITY = ?".

Definition delete_sql : string := "DELETE FROM customer WHERE CUST_CODE = ?".

Section Routes.
Context {DB : Type} `{Driver DB}.

Definition connectToDatabase : M DB unit :=
  try_catch pool_getConnection
    (fun err => console_error "Database connection error:" ;;
                throw "Internal server error").

(** [app.METHOD(path, chains, handler)]: the chains run, then the
    handler, which reads their errors with [validationResult(req)]. *)
Definition route (chains : list Chain)
  (handler : Request -> list ValidationError -> M DB unit) (req : Request)
  : M DB unit :=
  let (req', errors) := run_chains chains req in handler req' errors.

(** POST /api/company *)
Definition post_company_chains : list Chain :=
  [ body_ "companyId" |> trim |> isLength 1 6 |> escape;
    body_ "companyName" |> trim |> isLength 1 25 |> escape;
    body_ "companyCity" |> trim |> isLength 1 25 |> escape ].

Definition post_company_handler (req : Request) (errors : list ValidationError)
  : M DB unit :=
  connection <- connectToDatabase ;;
  if negb (isEmpty errors) then res_status_json 400 (Errors errors)
  else
    let companyId := body req !! "companyId" in
    let companyName := body req !! "companyName" in
    let companyCity := body req !! "companyCity" in
    try_catch_finally
      (_ <- query insert_sql [companyId; companyName; companyCity] ;;
       res_status_json 201 (Message "Company successfully added"))
      (fun err => console_error "Error adding Company:" ;;
                  res_status_json 500 (Error "Server error"))
      release.

(** PATCH /api/company/:companyId *)
Definition patch_company_chains : list Chain :=
  [ param "companyId" |> trim |> isLength 1 6 |> escape
      |> withMessage "ID must be between 1 and 6 characters";
    body_ "companyName" |> trim |> isLength 1 25 |> escape;
    body_ "companyCity" |> trim |> isLength 1 25 |> escape ].

Definition patch_company_handler (req : Request) (errors : list ValidationError)
  : M DB unit :=
  connection <- connectToDatabase ;;
  if negb (isEmpty errors) then res_status_json 400 (Errors errors)
  else
    let companyId := params req !! "companyId" in
    let companyName := body req !! "companyName" in
    let companyCity := body req !! "companyCity" in
    if negb (truthy companyName) && negb (truthy companyCity)
    then res_status_json 400
           (Error "Provide at least one field to update (companyName or companyCity)")
    else
      try_catch_finally
        (let (sql, values) := patch_statement companyId companyName companyCity in
         result <- query sql values ;;
         if Nat.eqb (affectedRows result) 0
         then res_status_json 404 (Error "Company not found")
         else res_json (Message "Company updated successfully"))
        (fun err => console_error "Error updating Company:" ;;
                    res_status_json 500 (Error "Server error"))
        release.

(** PUT /api/company/:companyId *)
Definition put_company_chains : list Chain :=
  [ param "companyId" |> trim |> isLength 1 6 |> escape
      |> withMessage "ID must be between 1 and 6 characters";
    body_ "companyName" |> trim |> isLength 1 25 |> escape;
    body_ "companyCity" |> trim |> isLength 1 25 |> escape ].

Definition put_company_handler (req : Request) (errors : list ValidationError)
  : M DB unit :=
  connection <- connectToDatabase ;;
  if negb (isEmpty errors) then res_status_json 400 (Errors errors)
  else
    let companyId := params req !! "companyId" in
    let companyName := body req !! "companyName" in
    let companyCity := body req !! "companyCity" in
    try_catch_finally
      (result <- query upsert_sql
                   [companyId; companyName; companyCity; companyName; companyCity] ;;
       if Nat.eqb (affectedRows result) 1 && Nat.eqb (warningStatus result) 0
       then res_status_json 201 (Message "Company added")
       else res_json (Message "Company updated"))
      (fun err => console_error "Error in upsert operation:" ;;
                  res_status_json 500 (Error "Server error"))
      release.

(** DELETE /api/customers/:custCode *)
Definition delete_customer_chains : list Chain :=
  [ param "custCode" |> isLength 6 6
      |> withMessage "Customer code must be 6 characters long" ].

Definition delete_customer_handler (req : Request) (errors : list ValidationError)
  : M DB unit :=
  connection <- connectToDatabase ;;
  if negb (isEmpty errors) then res_status_json 400 (Errors errors)
  else
    let custCode := params req !! "custCode" in
    try_catch_finally
      (result <- query delete_sql [custCode] ;;
       if Nat.eqb (affectedRows result) 0
       then res_status_json 404 (Error "Customer not found")
       else res_json (Message "Customer deleted successfully"))
      (fun err => console_error "Error deleting customer:" ;;
                  res_status_json 500 (Error "Internal server error"))
      release.

(** The four pipeline endpoints. *)
Inductive Endpoint := PostCompany | PatchCompany | PutCompany | DeleteCustomer.

Definition chains_of (ep : Endpoint) : list Chain :=
  match ep with
  | PostCompany => post_company_chains
  | PatchCompany => patch_company_chains
  | PutCompany => put_company_chains
  | DeleteCustomer => delete_customer_chains
  end.

Definition handler_of (ep : Endpoint)
  : Request -> list ValidationError -> M DB unit :=
  match ep with
  | PostCompany => post_company_handler
  | PatchCompany => patch_company_handler
  | PutCompany => put_company_handler
  | DeleteCustomer => delete_customer_handler
  end.

Definition serve (ep : Endpoint) : Request -> M DB unit :=
  route (chains_of ep) (handler_of ep).

(** The world once a connection is leased. *)
Definition connected (w : World DB) : World DB :=
  mkWorld (store w) (pool_available w) (S (acquired w)) (released w)
          (executed w) (sent w) (console w).

(** The world a validation rejection leaves: a connection acquired, the
    400 with the error list sent, nothing else touched. *)
Definition rejected (errors : list ValidationError) (w : World DB) : World DB :=
  mkWorld (store w) (pool_available w) (S (acquired w)) (released w)
          (executed w) (sent w ++ [mkResponse 400 (Errors errors)]) (console w).

End Routes.

End Server.

(** ** The store: the tables and the statements the routes send

    Modelled from the spec: the relational engine and the schema of its
    tables are not under src/.  The tables are those of section 3 of the
    spec, a [company] keyed by COMPANY_ID and a [customer]; the engine is
    modelled from its documented behaviour and was not run.  The model has
    no column widths, no strict mode and compares keys byte for byte.

    The relational engine is outside the repository.  This is its
    behaviour on the statement texts of server.js, for a [company] table
    whose primary key is COMPANY_ID and a [customer] table, under a binary
    collation: which rows a statement changes and the [affectedRows] it
    reports.  For INSERT ... ON DUPLICATE KEY UPDATE the engine counts 1 for
    a row inserted, 2 for an existing row changed, and for an existing row
    set to the values it already holds 0, or 1 when the session was opened
    with the CLIENT_FOUND_ROWS capability; for UPDATE it counts changed
    rows, or matched rows under that capability.  None of the statements
    raises a warning. *)

Module MariaDB.
Import Runtime.

Record CompanyRow := mkCompany {
  COMPANY_ID : string;
  COMPANY_NAME : option string;
  COMPANY_CITY : option string
}.

Record CustomerRow := mkCustomer {
  CUST_CODE : string;
  CUST_NAME : option string
}.

Record Database := mkDatabase {
  company : list CompanyRow;
  customer : list CustomerRow;
  client_found_rows : bool
}.

#[global] Instance CompanyRow_eq_dec : EqDecision CompanyRow.
Proof. solve_decision. Defined.

Inductive Column := ID | NAME | CITY.

Definition column_name (c : Column) : string :=
  match c with
  | ID => "COMPANY_ID"
  | NAME => "COMPANY_NAME"
  | CITY => "COMPANY_CITY"
  end.

(** The statements the engine is asked to run, with [?] placeholders. *)
Inductive Statement :=
| Insert (on_duplicate_key_update : list Column)
| Update (assignments : list Column)
| Delete.

Definition placeholders (cols : list Column) : string :=
  String.concat ", " (map (fun c => column_name c +:+ " = ?") cols).

Definition render (st : Statement) : string :=
  match st with
  | Insert [] =>
      "INSERT INTO company (COMPANY_ID, COMPANY_NAME, COMPANY_CITY) VALUES (?, ?, ?)"
  | Insert cols =>
      "INSERT INTO company (COMPANY_ID, COMPANY_NAME, COMPANY_CITY) VALUES (?, ?, ?)"
      +:+ " ON DUPLICATE KEY UPDATE " +:+ placeholders cols
  | Update cols =>
      "UPDATE company SET " +:+ placeholders cols +:+ " WHERE COMPANY_ID = ?"
  | Delete => "DELETE FROM customer WHERE CUST_CODE = ?"
  end.

(** Assignment lists of one or two columns. *)
Definition column_lists : list (list Column) :=
  let cols := [ID; NAME; CITY] in
  map (fun c => [c]) cols ++ flat_map (fun c => map (fun d => [c; d]) cols) cols.

Definition grammar : list Statement :=
  Insert [] :: map Insert column_lists ++ map Update column_lists ++ [Delete].

(** A text outside the grammar is a syntax error. *)
Definition parse (sql : string) : option Statement :=
  find (fun st => String.eqb (render st) sql) grammar.

Definition assign (c : Column) (v : option string) (r : CompanyRow)
  : option CompanyRow :=
  match c, v with
  | ID, Some k => Some (mkCompany k (COMPANY_NAME r) (COMPANY_CITY r))
  | ID, None => None
  | NAME, _ => Some (mkCompany (COMPANY_ID r) v (COMPANY_CITY r))
  | CITY, _ => Some (mkCompany (COMPANY_ID r) (COMPANY_NAME r) v)
  end.

Fixpoint assign_all (cols : list Column) (vs : list (option string))
  (r : CompanyRow) : option CompanyRow :=
  match cols, vs with
  | [], [] => Some r
  | c :: cols', v :: vs' =>
      match assign c v r with
      | Some r' => assign_all cols' vs' r'
      | None => None
      end
  | _, _ => None
  end.

Definition has_key (k : string) (rows : list CompanyRow) : bool :=
  existsb (fun r => String.eqb (COMPANY_ID r) k) rows.

(** The rows with key [k] rewritten by [f]; the number of rows matched and
    of rows changed. *)
Fixpoint rewrite_rows (k : string) (f : CompanyRow -> option CompanyRow)
  (rows : list CompanyRow) : option (list CompanyRow * nat * nat) :=
  match rows with
  | [] => Some ([], 0, 0)
  | r :: rest =>
      match rewrite_rows k f rest with
      | None => None
      | Some (rest', matched, changed) =>
          if String.eqb (COMPANY_ID r) k
          then match f r with
               | None => None
               | Some r' =>
                   Some (r' :: rest', S matched,
                         if decide (r' = r) then changed else S changed)
               end
          else Some (r :: rest', matched, changed)
      end
  end.

Definition unique_keys (rows : list CompanyRow) : bool :=
  bool_decide (NoDup (map COMPANY_ID rows)).

Definition ok (n : nat) : string + QueryResult := inr (mkResult n 0).

(** Modelled from the spec: what the engine, which is not under src/,
    does with a statement and its bound values on the tables of section 3,
    and the result it reports. *)
Definition run (st : Statement) (values : list (option string)) (db : Database)
  : (string + QueryResult) * Database :=
  match st, values with
  | Insert cols, Some k :: name :: city :: vs =>
      if has_key k (company db)
      then match cols with
           | [] => (inl "ER_DUP_ENTRY", db)
           | _ =>
               match rewrite_rows k (assign_all cols vs) (company db) with
               | Some (rows, matched, changed) =>
                   if unique_keys rows
                   then (ok (if Nat.eqb changed 0
                             then (if client_found_rows db then 1 else 0)
                             else 2),
                         mkDatabase rows (customer db) (client_found_rows db))
                   else (inl "ER_DUP_ENTRY", db)
               | None => (inl "ER_BAD_NULL_ERROR", db)
               end
           end
      else if Nat.eqb (length vs) (length cols)
           then (ok 1,
                 mkDatabase (company db ++ [mkCompany k name city]) (customer db)
                            (client_found_rows db))
           else (inl "ER_WRONG_ARGUMENTS", db)
  | Insert _, _ => (inl "ER_BAD_NULL_ERROR", db)
  | Update cols, _ =>
      match List.last values None with
      | Some k =>
          match rewrite_rows k (assign_all cols (List.removelast values)) (company db) with
          | Some (rows, matched, changed) =>
              if unique_keys rows
              then (ok (if client_found_rows db then matched else changed),
                    mkDatabase rows (customer db) (client_found_rows db))
              else (inl "ER_DUP_ENTRY", db)
          | None => (inl "ER_WRONG_ARGUMENTS", db)
          end
      | None => (ok 0, db)
      end
  | Delete, [Some code] =>
      let kept := filter (fun r => negb (String.eqb (CUST_CODE r) code)) (customer db) in
      (ok (length (customer db) - length kept),
       mkDatabase (company db) kept (client_found_rows db))
  | Delete, [None] => (ok 0, db)
  | Delete, _ => (inl "ER_WRONG_ARGUMENTS", db)
  end.

#[global] Instance driver : Driver Database := {
  execute sql values db :=
    match parse sql with
    | Some st => run st values db
    | None => (inl "ER_PARSE_ERROR", db)
    end
}.

(** The options of [mariadb.createPool]; the connector opens its sessions
    with CLIENT_FOUND_ROWS unless [foundRows] is given as false. *)
Record PoolOptions := mkOptions {
  host : string;
  user : string;
  password : string;
  database : string;
  port : N;
  connectionsLimit : N;
  acquireTimeout : N;
  foundRows : option bool
}.

Definition session_found_rows (opts : PoolOptions) : bool :=
  match foundRows opts with
  | Some b => b
  | None => true
  end.

(** A world whose pool was created with [opts] over the given tables. *)
Definition createPool (opts : PoolOptions) (companies : list CompanyRow)
  (customers : list CustomerRow) : World Database :=
  mkWorld (mkDatabase companies customers (session_found_rows opts))
          true 0 0 [] [] [].

End MariaDB.

Module Deployment.
Import MariaDB.

(** The pool of server.js. *)
Definition pool_options : PoolOptions :=
  mkOptions "localhost" "root" "root" "sample" 3306%N 100%N 30000%N None.

(** The server over an empty company table, and over a table that holds
    the company C1. *)
Definition fresh_world : Runtime.World Database := createPool pool_options [] [].

Definition acme : CompanyRow := mkCompany "C1" (Some "Acme") (Some "NY").

Definition acme_world : Runtime.World Database := createPool pool_options [acme] [].

(** PUT /api/company/C1 with both attributes. *)
Definition put_acme : ExpressValidator.Request :=
  ExpressValidator.mkRequest
    {["companyId" := "C1"]} {["companyName" := "Acme"; "companyCity" := "NY"]}.

(** PUT or PATCH /api/company/C1 with a name and a city that differ from
    the stored ones. *)
Definition move_acme : ExpressValidator.Request :=
  ExpressValidator.mkRequest
    {["companyId" := "C1"]} {["companyName" := "Acme Corp"; "companyCity" := "Boston"]}.

(** PUT or PATCH /api/company/C1 with the name only. *)
Definition name_only : ExpressValidator.Request :=
  ExpressValidator.mkRequest {["companyId" := "C1"]} {["companyName" := "Acme"]}.

(** PATCH /api/company/C1 with an empty body. *)
Definition no_attribute : ExpressValidator.Request :=
  ExpressValidator.mkRequest {["companyId" := "C1"]} ∅.

(** POST /api/company with a key of seven characters. *)
Definition long_key : ExpressValidator.Request :=
  ExpressValidator.mkRequest
    ∅ {["companyId" := "ABCDEFG"; "companyName" := "Acme"; "companyCity" := "NY"]}.

(** POST /api/company with a key of seven characters and no attribute. *)
Definition long_key_only : ExpressValidator.Request :=
  ExpressValidator.mkRequest ∅ {["companyId" := "ABCDEFG"]}.

(** The attribute columns a partial update was given values for. *)
Definition supplied_columns (companyName companyCity : option string) : list Column :=
  (if Server.present companyName then [NAME] else [])
  ++ (if Server.present companyCity then [CITY] else []).

End Deployment.

(** ** What a route makes of a request, read off the handlers *)

Module Outcome.
Import ExpressValidator Runtime Server.

(** What trim then escape leave of a field; an absent field is read as the
    empty string. *)
Definition sanitized (v : option string) : string :=
  Validator.escape (Validator.trim (toString v)).

(** The white-space characters of JavaScript, each as its bytes: the
    controls 9 to 13, the space, U+00A0, U+1680, U+2000 to U+200A, U+2028,
    U+2029, U+202F, U+205F, U+3000 and U+FEFF. *)
Definition bytes (l : list nat) : string :=
  fold_right (fun n s => String (ascii_of_nat n) s) EmptyString l.

Definition white_space : list string :=
  map bytes
    [[9]; [10]; [11]; [12]; [13]; [32]; [194; 160]; [225; 154; 128];
     [226; 128; 128]; [226; 128; 129]; [226; 128; 130]; [226; 128; 131];
     [226; 128; 132]; [226; 128; 133]; [226; 128; 134]; [226; 128; 135];
     [226; 128; 136]; [226; 128; 137]; [226; 128; 138];
     [226; 128; 168]; [226; 128; 169]; [226; 128; 175]; [226; 129; 159];
     [227; 128; 128]; [239; 187; 191]].

(** The length check of the company chains: it reads the trimmed value,
    before the escape. *)
Definition within (min max : nat) (v : option string) : bool :=
  Validator.isLength min max (Validator.trim (toString v)).

(** The requests the chains of a route let through. *)
Definition accepts (ep : Endpoint) (req : Request) : bool :=
  match ep with
  | PostCompany =>
      within 1 6 (body req !! "companyId")
      && within 1 25 (body req !! "companyName")
      && within 1 25 (body req !! "companyCity")
  | PatchCompany | PutCompany =>
      within 1 6 (params req !! "companyId")
      && within 1 25 (body req !! "companyName")
      && within 1 25 (body req !! "companyCity")
  | DeleteCustomer => Validator.isLength 6 6 (toString (params req !! "custCode"))
  end.

Definition update_both_sql : string :=
  "UPDATE company SET COMPANY_NAME = ?, COMPANY_CITY = ? WHERE COMPANY_ID = ?".

(** The statement a route sends for a request it let through, in terms of
    the request as it arrived. *)
Definition bound_statement (ep : Endpoint) (req : Request)
  : string * list (option string) :=
  match ep with
  | PostCompany =>
      (insert_sql,
       [Some (sanitized (body req !! "companyId"));
        Some (sanitized (body req !! "companyName"));
        Some (sanitized (body req !! "companyCity"))])
  | PatchCompany =>
      (update_both_sql,
       [Some (sanitized (body req !! "companyName"));
        Some (sanitized (body req !! "companyCity"));
        Some (sanitized (params req !! "companyId"))])
  | PutCompany =>
      (upsert_sql,
       [Some (sanitized (params req !! "companyId"));
        Some (sanitized (body req !! "companyName"));
        Some (sanitized (body req !! "companyCity"));
        Some (sanitized (body req !! "companyName"));
        Some (sanitized (body req !! "companyCity"))])
  | DeleteCustomer => (delete_sql, [params req !! "custCode"])
  end.

(** The response of a route to the result of its statement. *)
Definition reconcile (ep : Endpoint) (result : QueryResult) : Response :=
  match ep with
  | PostCompany => mkResponse 201 (Message "Company successfully added")
  | PatchCompany =>
      if Nat.eqb (affectedRows result) 0
      then mkResponse 404 (Error "Company not found")
      else mkResponse 200 (Message "Company updated successfully")
  | PutCompany =>
      if Nat.eqb (affectedRows result) 1 && Nat.eqb (warningStatus result) 0
      then mkResponse 201 (Message "Company added")
      else mkResponse 200 (Message "Company updated")
  | DeleteCustomer =>
      if Nat.eqb (affectedRows result) 0
      then mkResponse 404 (Error "Customer not found")
      else mkResponse 200 (Message "Customer deleted successfully")
  end.

(** The response of a route when its statement was rejected, and the line
    its catch clause writes. *)
Definition failure (ep : Endpoint) : Response :=
  match ep with
  | DeleteCustomer => mkResponse 500 (Error "Internal server error")
  | _ => mkResponse 500 (Error "Server error")
  end.

Definition failure_log (ep : Endpoint) : string :=
  match ep with
  | PostCompany => "Error adding Company:"
  | PatchCompany => "Error updating Company:"
  | PutCompany => "Error in upsert operation:"
  | DeleteCustomer => "Error deleting customer:"
  end.

Definition answer (ep : Endpoint) (r : string + QueryResult) : Response :=
  match r with
  | inl _ => failure ep
  | inr result => reconcile ep result
  end.

(** The statuses a route can answer with. *)
Definition statuses (ep : Endpoint) : list nat :=
  match ep with
  | PostCompany => [201; 400; 500]
  | PatchCompany => [200; 400; 404; 500]
  | PutCompany => [200; 201; 400; 500]
  | DeleteCustomer => [200; 400; 404; 500]
  end.

(** The world after a request whose statement was answered [r], the store
    being left as [db']. *)
Definition settled {DB : Type} (ep : Endpoint) (req : Request)
  (r : string + QueryResult) (db' : DB) (w : World DB) : World DB :=
  mkWorld db' (pool_available w) (S (acquired w)) (S (released w))
          (executed w
             ++ [mkInteraction (fst (bound_statement ep req))
                               (snd (bound_statement ep req)) r])
          (sent w ++ [answer ep r])
          (match r with
           | inl _ => console w ++ [failure_log ep]
           | inr _ => console w
           end).

(** The world after a request that found no connection to lease. *)
Definition refused {DB : Type} (w : World DB) : World DB :=
  mkWorld (store w) (pool_available w) (acquired w) (released w)
          (executed w) (sent w) (console w ++ ["Database connection error:"]).

End Outcome.

(** ** Tables before and after a statement *)

Module Tables.
Import MariaDB.

(** The company rows with the attributes of the rows keyed [k] replaced. *)
Definition overwrite (k : string) (name city : option string)
  (rows : list CompanyRow) : list CompanyRow :=
  map (fun r => if String.eqb (COMPANY_ID r) k
                then mkCompany (COMPANY_ID r) name city
                else r) rows.

(** The rows a statement keyed [k] matches, and those among them that the
    new attributes change. *)
Definition matched_rows (k : string) (rows : list CompanyRow) : nat :=
  length (List.filter (fun r => String.eqb (COMPANY_ID r) k) rows).

Definition changed_rows (k : string) (name city : option string)
  (rows : list CompanyRow) : nat :=
  length (List.filter
            (fun r => String.eqb (COMPANY_ID r) k
                      && negb (bool_decide (mkCompany (COMPANY_ID r) name city = r)))
            rows).

(** Modelled from the spec: the widths of the columns of [company], which
    are not under src/.  Section 3 of the spec gives a key of at most 6
    characters and a name and a city of at most 25; a value fits when its
    code points are no more than the width. *)
Definition fits (width : nat) (v : string) : Prop :=
  Validator.code_points v <= width.

Definition company_fits (id name city : string) : Prop :=
  fits 6 id /\ fits 25 name /\ fits 25 city.

(** Whether a customer has the code, and the customers that have not. *)
Definition holds_code (code : string) (rows : list CustomerRow) : bool :=
  existsb (fun r => String.eqb (CUST_CODE r) code) rows.

Definition without_code (code : string) (rows : list CustomerRow)
  : list CustomerRow :=
  List.filter (fun r => negb (String.eqb (CUST_CODE r) code)) rows.

End Tables.

(** ** The listing routes: GET /api/customers, /api/students, /api/foods *)

Module Listing.
Import Runtime Server.

(** A row of a result set is the object the connector builds, from column
    names to values; a NULL column reads like a missing one.  The store
    behind a SELECT rejects with an error or resolves with rows. *)
Class Reader (DB : Type) := {
  select : string -> DB -> (string + list (gmap string string)) * DB
}.

(** The JSON bodies of the listing routes: a list of names under a key, or
    an error message.  A name that is missing in its row is sent as null. *)
Inductive Payload :=
| Names (key : string) (names : list (option string))
| Failure (error : string).

Record Reply := mkReply {
  code : nat;
  payload : Payload
}.

(** One SELECT: its text and how the store answered. *)
Record Selection := mkSelection {
  text : string;
  rows : string + list (gmap string string)
}.

(** A listing request in flight: the world, whether the handler has set
    [req.db], the replies sent and the selects run. *)
Record Scene (DB : Type) := mkScene {
  world : World DB;
  req_db : bool;
  replies : list Reply;
  selections : list Selection
}.
Arguments mkScene {DB}.
Arguments world {DB}.
Arguments req_db {DB}.
Arguments replies {DB}.
Arguments selections {DB}.

Definition L (DB A : Type) : Type := Scene DB -> Completion A * Scene DB.

(** A request arrives with no [db] property. *)
Definition arrive {DB : Type} (w : World DB) : Scene DB := mkScene w false [] [].

Section Effects.
Context {DB : Type} `{Reader DB}.

Definition l_bind {A B} (m : L DB A) (k : A -> L DB B) : L DB B :=
  fun sc =>
    match m sc with
    | (Normal a, sc') => k a sc'
    | (Throw e, sc') => (Throw e, sc')
    end.

Definition l_try_catch_finally {A} (body : L DB A) (handler : string -> L DB A)
  (fin : L DB unit) : L DB A :=
  fun sc =>
    let (c, sc1) :=
      match body sc with
      | (Normal a, sc') => (Normal a, sc')
      | (Throw e, sc') => handler e sc'
      end in
    match fin sc1 with
    | (Normal _, sc2) => (c, sc2)
    | (Throw e, sc2) => (Throw e, sc2)
    end.

(** An effect on the world, run inside a listing request. *)
Definition lift {A} (m : M DB A) : L DB A :=
  fun sc =>
    let (c, w') := m (world sc) in
    (c, mkScene w' (req_db sc) (replies sc) (selections sc)).

(** [req.db = connection]. *)
Definition assign_req_db : L DB unit :=
  fun sc => (Normal tt, mkScene (world sc) true (replies sc) (selections sc)).

(** [req.db.query(sql)] for a SELECT. *)
Definition select_rows (sql : string) : L DB (list (gmap string string)) :=
  fun sc =>
    let (r, db') := select sql (store (world sc)) in
    let w := world sc in
    let sc' := mkScene (mkWorld db' (pool_available w) (acquired w) (released w)
                                (executed w) (sent w) (console w))
                       (req_db sc) (replies sc)
                       (selections sc ++ [mkSelection sql r]) in
    match r with
    | inl err => (Throw err, sc')
    | inr found => (Normal found, sc')
    end.

(** [res.status(code).json(payload)]. *)
Definition reply (status : nat) (body : Payload) : L DB unit :=
  fun sc => (Normal tt,
             mkScene (world sc) (req_db sc) (replies sc ++ [mkReply status body])
                     (selections sc)).

(** [req.db.release()]: reading [release] of an undefined [req.db] is a
    TypeError. *)
Definition req_db_release : L DB unit :=
  fun sc =>
    if req_db sc then lift release sc
    else (Throw "TypeError: Cannot read properties of undefined (reading 'release')",
          sc).

Definition get_customers : L DB unit :=
  l_try_catch_finally
    (l_bind (lift connectToDatabase) (fun _ =>
     l_bind assign_req_db (fun _ =>
     l_bind (select_rows "SELECT CUST_NAME FROM customer") (fun rows =>
     let customerNames := map (fun row : gmap string string => row !! "CUST_NAME") rows in
     reply 200 (Names "customerList" customerNames)))))
    (fun err =>
       l_bind (lift (console_error "Error fetching customers:")) (fun _ =>
       reply 500 (Failure "Internal server error")))
    req_db_release.

Definition get_students : L DB unit :=
  l_try_catch_finally
    (l_bind (lift connectToDatabase) (fun _ =>
     l_bind assign_req_db (fun _ =>
     l_bind (select_rows "SELECT NAME FROM student") (fun rows =>
     let studentNames := map (fun row : gmap string string => row !! "NAME") rows in
     reply 200 (Names "studentList" studentNames)))))
    (fun err =>
       l_bind (lift (console_error "Error fetching Students:")) (fun _ =>
       reply 500 (Failure "Internal server error")))
    req_db_release.

Definition get_foods : L DB unit :=
  l_try_catch_finally
    (l_bind (lift connectToDatabase) (fun _ =>
     l_bind assign_req_db (fun _ =>
     l_bind (select_rows "SELECT ITEM_NAME FROM foods") (fun rows =>
     let customerNames := map (fun row : gmap string string => row !! "ITEM_NAME") rows in
     reply 200 (Names "foodList" customerNames)))))
    (fun err =>
       l_bind (lift (console_error "Error fetching foods:")) (fun _ =>
       reply 500 (Failure "Internal server error")))
    req_db_release.

(** The three listing routes with the text they select, the column they
    read, the key they answer under and the line they log. *)
Inductive Route := Customers | Students | Foods.

Definition handler (route : Route) : L DB unit :=
  match route with
  | Customers => get_customers
  | Students => get_students
  | Foods => get_foods
  end.

Definition select_text (route : Route) : string :=
  match route with
  | Customers => "SELECT CUST_NAME FROM customer"
  | Students => "SELECT NAME FROM student"
  | Foods => "SELECT ITEM_NAME FROM foods"
  end.

Definition column (route : Route) : string :=
  match route with
  | Customers => "CUST_NAME"
  | Students => "NAME"
  | Foods => "ITEM_NAME"
  end.

Definition list_key (route : Route) : string :=
  match route with
  | Customers => "customerList"
  | Students => "studentList"
  | Foods => "foodList"
  end.

Definition fetch_log (route : Route) : string :=
  match route with
  | Customers => "Error fetching customers:"
  | Students => "Error fetching Students:"
  | Foods => "Error fetching foods:"
  end.

End Effects.

(** A store for the three tables the listings read: the customers of the
    mutation routes, and the names of the students and of the food items. *)
Record Catalog := mkCatalog {
  base : MariaDB.Database;
  student : list (option string);
  foods : list (option string)
}.

Definition name_row (col : string) (name : option string) : gmap string string :=
  match name with
  | Some s => {[col := s]}
  | None => ∅
  end.

#[global] Instance catalog_reader : Reader Catalog := {
  select sql c :=
    if String.eqb sql "SELECT CUST_NAME FROM customer"
    then (inr (map (fun r => name_row "CUST_NAME" (MariaDB.CUST_NAME r))
                   (MariaDB.customer (base c))), c)
    else if String.eqb sql "SELECT NAME FROM student"
    then (inr (map (name_row "NAME") (student c)), c)
    else if String.eqb sql "SELECT ITEM_NAME FROM foods"
    then (inr (map (name_row "ITEM_NAME") (foods c)), c)
    else (inl "ER_PARSE_ERROR", c)
}.

(** A catalog with two customers, one of them without a name. *)
Definition sample_catalog : Catalog :=
  mkCatalog
    (MariaDB.mkDatabase []
       [MariaDB.mkCustomer "C00013" (Some "Holmes"); MariaDB.mkCustomer "C00001" None]
       true)
    [Some "Ada"] [].

Definition sample_world (available : bool) : World Catalog :=
  mkWorld sample_catalog available 0 0 [] [] [].

End Listing.

(** ** The proxy route: GET /say *)

Module Proxy.
Import Runtime.

(** The chain of the route also has custom validators, which are handed
    the value itself and not its string, so that they can tell an absent
    value. *)
Inductive Step :=
| Sanitize (f : string -> string)
| Standard (check : string -> bool) (message : string)
| Custom (check : option string -> bool) (message : string).

Record QueryChain := mkQueryChain {
  field : string;
  steps : list Step
}.

(** An entry of the validation result; its location is always the query. *)
Record Issue := mkIssue {
  param : string;
  msg : string;
  value : option string
}.

Definition query_ (name : string) : QueryChain := mkQueryChain name [].

Definition add_step (st : Step) (c : QueryChain) : QueryChain :=
  mkQueryChain (field c) (steps c ++ [st]).

(** [exists()]: the value is not undefined.  [isString()]: the value is a
    string. *)
Definition exists_ : QueryChain -> QueryChain :=
  add_step (Custom (fun v => match v with Some _ => true | None => false end)
                   ExpressValidator.default_message).

Definition isString : QueryChain -> QueryChain :=
  add_step (Custom (fun v => match v with Some _ => true | None => false end)
                   ExpressValidator.default_message).

Definition escape : QueryChain -> QueryChain := add_step (Sanitize Validator.escape).
Definition trim : QueryChain -> QueryChain := add_step (Sanitize Validator.trim).

Definition isLength (min max : nat) : QueryChain -> QueryChain :=
  add_step (Standard (Validator.isLength min max) ExpressValidator.default_message).

(** [withMessage] sets the message of the validator added last. *)
Fixpoint set_last_message (m : string) (stack : list Step) : list Step * bool :=
  match stack with
  | [] => ([], false)
  | st :: rest =>
      let (rest', found) := set_last_message m rest in
      if found then (st :: rest', true)
      else match st with
           | Standard check _ => (Standard check m :: rest', true)
           | Custom check _ => (Custom check m :: rest', true)
           | Sanitize _ => (st :: rest', false)
           end
  end.

Definition withMessage (m : string) (c : QueryChain) : QueryChain :=
  mkQueryChain (field c) (fst (set_last_message m (steps c))).

Fixpoint run_steps (name : string) (stack : list Step) (v : option string)
  : option string * list Issue :=
  match stack with
  | [] => (v, [])
  | Sanitize f :: rest => run_steps name rest (Some (f (ExpressValidator.toString v)))
  | Standard check m :: rest =>
      let (v', issues) := run_steps name rest v in
      if check (ExpressValidator.toString v) then (v', issues)
      else (v', mkIssue name m v :: issues)
  | Custom check m :: rest =>
      let (v', issues) := run_steps name rest v in
      if check v then (v', issues) else (v', mkIssue name m v :: issues)
  end.

(** The chain run on [req.query]: the sanitized value is written back when
    it differs. *)
Definition run_query_chain (c : QueryChain) (query : gmap string string)
  : gmap string string * list Issue :=
  let old := query !! field c in
  let (new, issues) := run_steps (field c) (steps c) old in
  match new with
  | Some s => if decide (old = Some s) then (query, issues)
              else (<[field c := s]> query, issues)
  | None => (query, issues)
  end.

(** The bodies of the route: the issues of a rejected request, or the data
    of the function under the key response. *)
Inductive Body :=
| Issues (errors : list Issue)
| Relay (response : string).

Record Answer := mkAnswer {
  status : nat;
  body : Body
}.

(** What the handler can observe or change: the function behind the URL,
    which resolves with data or rejects with a message, the calls made to
    it with the value of [param], the answers sent and the console. *)
Record Net := mkNet {
  upstream : option string -> string + string;
  calls : list (option string);
  answers : list Answer;
  lines : list string
}.

Definition say_chain : QueryChain :=
  query_ "keyword"
    |> exists_ |> withMessage "keyword query parameter is missing"
    |> isString |> withMessage "Keyword must be a string"
    |> escape
    |> trim
    |> isLength 1 100
    |> withMessage "Keyword length must be between 1 and 100 characters".

(** The handler of GET /say. *)
Definition say (query0 : gmap string string) (net : Net) : Completion unit * Net :=
  let (query, errors) := run_query_chain say_chain query0 in
  match errors with
  | _ :: _ =>
      (Normal tt,
       mkNet (upstream net) (calls net)
             (answers net ++ [mkAnswer 400 (Issues errors)]) (lines net))
  | [] =>
      let keyword := query !! "keyword" in
      match upstream net keyword with
      | inr data =>
          (Normal tt,
           mkNet (upstream net) (calls net ++ [keyword])
                 (answers net ++ [mkAnswer 200 (Relay data)]) (lines net))
      | inl message =>
          (Normal tt,
           mkNet (upstream net) (calls net ++ [keyword]) (answers net)
                 (lines net ++ ["Error calling function:"]))
      end
  end.

(** A function that echoes its parameter, and one that is down. *)
Definition echo_net : Net :=
  mkNet (fun p => inr (ExpressValidator.toString p)) [] [] [].

Definition down_net : Net :=
  mkNet (fun _ => inl "Request failed with status code 503") [] [] [].

End Proxy.

(** ** Sample worlds and requests *)

Module Samples.
Import ExpressValidator Runtime MariaDB Deployment.

(** The server with the company C1 and two customers. *)
Definition holmes : CustomerRow := mkCustomer "C00013" (Some "Holmes").
Definition micheal : CustomerRow := mkCustomer "C00001" (Some "Micheal").

Definition clients_world : World Database :=
  createPool pool_options [acme] [holmes; micheal].

(** The same server while the pool cannot lease a connection. *)
Definition stalled_world : World Database :=
  mkWorld (store clients_world) false 0 0 [] [] [].

(** POST /api/company for the stored key C1, and for the fresh key C2. *)
Definition post_acme : Request :=
  mkRequest ∅ {["companyId" := "C1"; "companyName" := "Acme"; "companyCity" := "NY"]}.

Definition post_globex : Request :=
  mkRequest ∅ {["companyId" := " C2 "; "companyName" := "Globex <Inc>";
                "companyCity" := "Springfield"]}.

(** PATCH or PUT for a key that is not in the table, and for the stored
    key with a name of three spaces. *)
Definition move_initech : Request :=
  mkRequest {["companyId" := "C9"]}
            {["companyName" := "Initech"; "companyCity" := "Austin"]}.

Definition blank_name : Request :=
  mkRequest {["companyId" := "C1"]} {["companyName" := "   "; "companyCity" := "NY"]}.

(** DELETE /api/customers/C00013, a stored code, and /api/customers/C99999,
    a code no customer has. *)
Definition delete_holmes : Request := mkRequest {["custCode" := "C00013"]} ∅.

Definition delete_nobody : Request := mkRequest {["custCode" := "C99999"]} ∅.

(** A name of two white-space characters, a space and U+00A0, and the
    PATCH or PUT of C1 that carries it. *)
Definition blank_pair : list string :=
  [Outcome.bytes [32]; Outcome.bytes [194; 160]].

Definition blank_wide : Request :=
  mkRequest {["companyId" := "C1"]}
            {["companyName" := fold_right String.append EmptyString blank_pair;
              "companyCity" := "NY"]}.

(** GET /say?keyword=... with a keyword in brackets and spaces, and with a
    keyword of 26 opening brackets. *)
Definition say_hello : gmap string string := {["keyword" := " <hello> "]}.

Definition say_brackets : gmap string string :=
  {["keyword" := "<<<<<<<<<<<<<<<<<<<<<<<<<<"]}.

(** A store whose every SELECT is rejected. *)
Definition lost_reader : Listing.Reader unit :=
  {| Listing.select := fun _ u => (inl "ER_CONNECTION_LOST", u) |}.

Definition lost_world : World unit := mkWorld tt true 0 0 [] [] [].

End Samples.

(** ** Properties of the validation chains *)

Module Chains.
Import ExpressValidator.

Lemma run_chain_errors c req :
  snd (run_chain c req)
  = snd (run_items (chain_location c) (chain_field c) (chain_stack c)
           (field_of req (chain_location c) (chain_field c))).
Proof.
  unfold run_chain.
  destruct (run_items _ _ _ _) as [[s|] errs]; simpl; [|reflexivity].
  destruct (decide _); reflexivity.
Qed.

Lemma field_of_set_field_ne req loc name s loc' name' :
  (loc', name') <> (loc, name) ->
  field_of (set_field req loc name s) loc' name' = field_of req loc' name'.
Proof.
  intros Hne. destruct loc, loc'; simpl; try reflexivity;
    apply lookup_insert_ne; congruence.
Qed.

(** A chain leaves every other field of the request as it was. *)
Lemma run_chain_frame c req loc' name' :
  (loc', name') <> key c ->
  field_of (fst (run_chain c req)) loc' name' = field_of req loc' name'.
Proof.
  intros Hne. unfold run_chain.
  destruct (run_items _ _ _ _) as [[s|] errs]; simpl; [|reflexivity].
  destruct (decide _); simpl; [reflexivity|].
  apply field_of_set_field_ne. exact Hne.
Qed.

Lemma run_chain_errors_ext c req req0 :
  field_of req (chain_location c) (chain_field c)
  = field_of req0 (chain_location c) (chain_field c) ->
  snd (run_chain c req) = snd (run_chain c req0).
Proof. intros Heq. rewrite !run_chain_errors, Heq. reflexivity. Qed.

(** Chains over distinct fields do not interfere: the errors of the route
    are the errors of each chain on the request as it arrived, in the
    order of the chains. *)
Lemma run_chains_errors_from cs : forall req req0,
  NoDup (map key cs) ->
  (forall c, In c cs ->
     field_of req (chain_location c) (chain_field c)
     = field_of req0 (chain_location c) (chain_field c)) ->
  snd (run_chains cs req) = flat_map (fun c => snd (run_chain c req0)) cs.
Proof.
  induction cs as [|c cs IH]; intros req req0 Hnd Hagree; [reflexivity|].
  simpl. apply NoDup_cons in Hnd as [Hnotin Hnd].
  destruct (run_chain c req) as [req1 e1] eqn:E1.
  destruct (run_chains cs req1) as [req2 e2] eqn:E2. simpl.
  f_equal.
  - change e1 with (snd (req1, e1)). rewrite <- E1.
    apply run_chain_errors_ext, Hagree. left; reflexivity.
  - change e2 with (snd (req2, e2)). rewrite <- E2.
    apply IH; [exact Hnd|].
    intros d Hd. change req1 with (fst (req1, e1)). rewrite <- E1.
    rewrite run_chain_frame.
    + apply Hagree. right; exact Hd.
    + intros Heq. apply Hnotin. rewrite <- Heq.
      apply list_elem_of_In, (in_map key), Hd.
Qed.

Lemma run_chains_errors cs req :
  NoDup (map key cs) ->
  snd (run_chains cs req) = flat_map (fun c => snd (run_chain c req)) cs.
Proof. intros Hnd. apply run_chains_errors_from; auto. Qed.

(** Every error of a chain names the chain's field, and a chain records at
    most one error per validator. *)
Lemma run_items_errors loc name stack : forall v,
  Forall (fun e => location e = loc /\ path e = name)
         (snd (run_items loc name stack v))
  /\ length (snd (run_items loc name stack v)) <= validators stack.
Proof.
  induction stack as [|[f|check m] rest IH]; intros v; simpl.
  - split; [constructor|lia].
  - apply IH.
  - destruct (IH v) as [Hall Hlen].
    destruct (run_items loc name rest v) as [v' errs]; simpl in *.
    destruct (check (toString v)); simpl; split; auto; try lia.
Qed.

Lemma single_validator_errors c req :
  validators (chain_stack c) = 1 ->
  (rule_fails c req = false /\ snd (run_chain c req) = [])
  \/ (rule_fails c req = true
      /\ exists e, snd (run_chain c req) = [e]
                   /\ location e = chain_location c /\ path e = chain_field c).
Proof.
  intros Hone. unfold rule_fails. rewrite run_chain_errors.
  destruct (run_items_errors (chain_location c) (chain_field c) (chain_stack c)
              (field_of req (chain_location c) (chain_field c))) as [Hall Hlen].
  rewrite Hone in Hlen.
  destruct (snd (run_items _ _ _ _)) as [|e [|e' l]]; simpl in *.
  - left; split; reflexivity.
  - right; split; [reflexivity|]. exists e. split; [reflexivity|].
    inversion Hall; subst; assumption.
  - lia.
Qed.

(** With one validator per chain, the errors of a route are one entry per
    failing chain, in the order of the chains. *)
Lemma one_entry_per_failure cs req :
  Forall (fun c => validators (chain_stack c) = 1) cs ->
  map (fun e => (location e, path e)) (flat_map (fun c => snd (run_chain c req)) cs)
  = map key (List.filter (fun c => rule_fails c req) cs).
Proof.
  induction 1 as [|c cs Hone _ IH]; [reflexivity|]. simpl.
  destruct (single_validator_errors c req Hone)
    as [[-> ->]|[-> [e [-> [Hloc Hpath]]]]]; simpl.
  - exact IH.
  - unfold key at 1. rewrite Hloc, Hpath, IH. reflexivity.
Qed.

Lemma chains_distinct ep : NoDup (map key (Server.chains_of ep)).
Proof. destruct ep; apply (bool_decide_unpack _); vm_compute; exact I. Qed.

Lemma chains_single_validator ep :
  Forall (fun c => validators (chain_stack c) = 1) (Server.chains_of ep).
Proof. destruct ep; repeat constructor. Qed.

Lemma run_chain_writes c req s :
  fst (run_items (chain_location c) (chain_field c) (chain_stack c)
         (field_of req (chain_location c) (chain_field c))) = Some s ->
  field_of (fst (run_chain c req)) (chain_location c) (chain_field c) = Some s.
Proof.
  unfold run_chain.
  destruct (run_items _ _ _ _) as [new errs]; simpl. intros ->.
  destruct (decide _) as [Heq|Hne]; simpl; [exact Heq|].
  destruct (chain_location c); simpl; apply lookup_insert_eq.
Qed.

Lemma run_chains_frame cs : forall req loc name,
  ~ In (loc, name) (map key cs) ->
  field_of (fst (run_chains cs req)) loc name = field_of req loc name.
Proof.
  induction cs as [|c cs IH]; intros req loc name Hnotin; [reflexivity|].
  simpl. destruct (run_chain c req) as [req1 e1] eqn:E1.
  destruct (run_chains cs req1) as [req2 e2] eqn:E2. simpl.
  change req2 with (fst (req2, e2)). rewrite <- E2, IH.
  - change req1 with (fst (req1, e1)). rewrite <- E1.
    apply run_chain_frame. intros Heq. apply Hnotin. left. symmetry. exact Heq.
  - intros Hin. apply Hnotin. right. exact Hin.
Qed.

(** After the chains of a route, a field holds what its own chain made of
    the value that arrived. *)
Lemma run_chains_field cs : forall req c s,
  NoDup (map key cs) ->
  In c cs ->
  fst (run_items (chain_location c) (chain_field c) (chain_stack c)
         (field_of req (chain_location c) (chain_field c))) = Some s ->
  field_of (fst (run_chains cs req)) (chain_location c) (chain_field c) = Some s.
Proof.
  induction cs as [|c0 cs IH]; intros req c s Hnd Hin Hval; [destruct Hin|].
  apply NoDup_cons in Hnd as [Hnotin Hnd].
  simpl. destruct (run_chain c0 req) as [req1 e1] eqn:E1.
  destruct (run_chains cs req1) as [req2 e2] eqn:E2. simpl.
  change req2 with (fst (req2, e2)). rewrite <- E2.
  destruct (decide (key c = key c0)) as [Hk|Hk].
  - injection Hk as Hloc Hname.
    rewrite run_chains_frame.
    + change req1 with (fst (req1, e1)). rewrite <- E1.
      destruct Hin as [<-|Hin]; [apply run_chain_writes, Hval|].
      exfalso. apply Hnotin. apply list_elem_of_In.
      replace (key c0) with (key c) by (unfold key; congruence).
      apply (in_map key), Hin.
    + intros Hin'. apply Hnotin. apply list_elem_of_In.
      replace (key c0) with (key c) by (unfold key; congruence). exact Hin'.
  - destruct Hin as [->|Hin]; [congruence|].
    apply IH; [exact Hnd|exact Hin|].
    change req1 with (fst (req1, e1)). rewrite <- E1.
    rewrite run_chain_frame; [exact Hval|exact Hk].
Qed.

Lemma escape_char_nonempty a : Validator.escape_char a <> EmptyString.
Proof.
  unfold Validator.escape_char.
  repeat match goal with |- context [if ?b then _ else _] => destruct b end;
    discriminate.
Qed.

Lemma escape_truthy t min max :
  Validator.isLength (S min) max t = true ->
  Server.truthy (Some (Validator.escape t)) = true.
Proof.
  destruct t as [|a t]; [discriminate|]. intros _. simpl.
  pose proof (escape_char_nonempty a) as Hne.
  destruct (Validator.escape_char a); [congruence|reflexivity].
Qed.

(** The chain trim, isLength, escape on a value: what it records and what
    it leaves in the field. *)
Lemma trimmed_chain_items loc name min max m v :
  run_items loc name
    [Sanitizer Validator.trim; StandardValidator (Validator.isLength min max) m;
     Sanitizer Validator.escape] v
  = (Some (Validator.escape (Validator.trim (toString v))),
     if Validator.isLength min max (Validator.trim (toString v)) then []
     else [mkError loc name m (Some (Validator.trim (toString v)))]).
Proof.
  simpl. destruct (Validator.isLength min max (Validator.trim (toString v)));
    reflexivity.
Qed.

Lemma trimmed_chain_field cs req loc name min max m :
  NoDup (map key cs) ->
  In (mkChain loc name
        [Sanitizer Validator.trim; StandardValidator (Validator.isLength min max) m;
         Sanitizer Validator.escape]) cs ->
  field_of (fst (run_chains cs req)) loc name
  = Some (Validator.escape (Validator.trim (toString (field_of req loc name)))).
Proof.
  intros Hnd Hin.
  apply (run_chains_field cs req _ _ Hnd Hin).
  simpl chain_stack. simpl chain_location. simpl chain_field.
  rewrite trimmed_chain_items. reflexivity.
Qed.

End Chains.

(** ** The pipeline over any store *)

Module Pipeline.
Import ExpressValidator Runtime Server Chains.

Section AnyStore.
Context {DB : Type} `{Driver DB}.

Lemma connect_available (w : World DB) :
  pool_available w = true ->
  connectToDatabase w
  = (Normal tt,
     mkWorld (store w) (pool_available w) (S (acquired w)) (released w)
             (executed w) (sent w) (console w)).
Proof.
  destruct w; simpl; intros ->. reflexivity.
Qed.

Lemma connect_unavailable (w : World DB) :
  pool_available w = false ->
  connectToDatabase w
  = (Throw "Internal server error",
     mkWorld (store w) (pool_available w) (acquired w) (released w)
             (executed w) (sent w) (console w ++ ["Database connection error:"])).
Proof.
  destruct w; simpl; intros ->. reflexivity.
Qed.

(** Every handler answers a non-empty error list in the same way. *)
Lemma handler_rejects ep req errors (w : World DB) :
  pool_available w = true ->
  errors <> [] ->
  handler_of ep req errors w = (Normal tt, rejected errors w).
Proof.
  intros Hp Hne. destruct errors as [|e errors]; [congruence|].
  destruct ep; simpl;
    unfold post_company_handler, patch_company_handler, put_company_handler,
      delete_customer_handler, bind;
    rewrite (connect_available w Hp); reflexivity.
Qed.

(** When the pool cannot lease a connection the handler throws before it
    reads the validation result: nothing is sent. *)
Lemma handler_without_connection ep req errors (w : World DB) :
  pool_available w = false ->
  exists w', handler_of ep req errors w = (Throw "Internal server error", w')
             /\ sent w' = sent w /\ executed w' = executed w
             /\ acquired w' = acquired w /\ released w' = released w.
Proof.
  intros Hp. eexists. split.
  - destruct ep; simpl;
      unfold post_company_handler, patch_company_handler, put_company_handler,
        delete_customer_handler, bind;
      rewrite (connect_unavailable w Hp); reflexivity.
  - simpl. repeat split; reflexivity.
Qed.

Lemma serve_unfold ep req (w : World DB) :
  serve ep req w
  = handler_of ep (fst (run_chains (chains_of ep) req))
      (snd (run_chains (chains_of ep) req)) w.
Proof.
  unfold serve, route. destruct (run_chains (chains_of ep) req); reflexivity.
Qed.

(** C3, as amended: on a mutation endpoint whose field validation fails,
    the pool being able to lease a connection, the pipeline sends the 400
    with the error list and ends before any statement executes: the store
    and the list of executed statements are untouched.  The connection was
    acquired first, before the validation result is read. *)
Theorem validation_rejection_precedes_statement ep req (w : World DB) :
  pool_available w = true ->
  snd (run_chains (chains_of ep) req) <> [] ->
  let w' := snd (serve ep req w) in
  fst (serve ep req w) = Normal tt
  /\ sent w' = sent w ++ [mkResponse 400 (Errors (snd (run_chains (chains_of ep) req)))]
  /\ executed w' = executed w
  /\ store w' = store w
  /\ acquired w' = S (acquired w).
Proof.
  intros Hp Hne. rewrite serve_unfold, (handler_rejects _ _ _ _ Hp Hne).
  simpl. repeat split; reflexivity.
Qed.

(** C6: when several field-validation rules of a request fail, the answer
    is a 400 whose body is the errors list holding one entry per failing
    rule, in the order the rules are declared: the errors of every chain on
    the request as it arrived, none dropped. *)
Theorem validation_errors_reported_in_full ep req (w : World DB) :
  pool_available w = true ->
  2 <= length (List.filter (fun c => rule_fails c req) (chains_of ep)) ->
  exists errors,
    sent (snd (serve ep req w)) = sent w ++ [mkResponse 400 (Errors errors)]
    /\ errors = flat_map (fun c => snd (run_chain c req)) (chains_of ep)
    /\ map (fun e => (location e, path e)) errors
       = map key (List.filter (fun c => rule_fails c req) (chains_of ep))
    /\ length errors = length (List.filter (fun c => rule_fails c req) (chains_of ep)).
Proof.
  intros Hp Hmany.
  pose proof (run_chains_errors (chains_of ep) req (chains_distinct ep)) as Herrs.
  pose proof (one_entry_per_failure (chains_of ep) req (chains_single_validator ep))
    as Hentries.
  assert (Hlen : length (flat_map (fun c => snd (run_chain c req)) (chains_of ep))
                 = length (List.filter (fun c => rule_fails c req) (chains_of ep))).
  { rewrite <- (length_map (fun e => (location e, path e))), Hentries.
    apply length_map. }
  exists (flat_map (fun c => snd (run_chain c req)) (chains_of ep)).
  split; [|split; [reflexivity|split; [exact Hentries|exact Hlen]]].
  rewrite serve_unfold, Herrs, handler_rejects; [reflexivity|exact Hp|].
  intros Hnil. rewrite Hnil in Hlen. simpl in Hlen. lia.
Qed.

Lemma post_handler_passed req (w : World DB) :
  pool_available w = true ->
  post_company_handler req [] w
  = try_catch_finally
      (_ <- query insert_sql
              [body req !! "companyId"; body req !! "companyName";
               body req !! "companyCity"] ;;
       res_status_json 201 (Message "Company successfully added"))
      (fun err => console_error "Error adding Company:" ;;
                  res_status_json 500 (Error "Server error"))
      release (connected w).
Proof.
  intros Hp. unfold post_company_handler, bind at 1.
  rewrite (connect_available w Hp). reflexivity.
Qed.

Lemma patch_handler_passed req (w : World DB) :
  pool_available w = true ->
  patch_company_handler req [] w
  = (if negb (truthy (body req !! "companyName"))
        && negb (truthy (body req !! "companyCity"))
     then res_status_json 400
            (Error "Provide at least one field to update (companyName or companyCity)")
     else
       try_catch_finally
         (let (text, bound) :=
            patch_statement (params req !! "companyId") (body req !! "companyName")
              (body req !! "companyCity") in
          result <- query text bound ;;
          if Nat.eqb (affectedRows result) 0
          then res_status_json 404 (Error "Company not found")
          else res_json (Message "Company updated successfully"))
         (fun err => console_error "Error updating Company:" ;;
                     res_status_json 500 (Error "Server error"))
         release) (connected w).
Proof.
  intros Hp. unfold patch_company_handler, bind at 1.
  rewrite (connect_available w Hp). reflexivity.
Qed.

Lemma delete_handler_passed req (w : World DB) :
  pool_available w = true ->
  delete_customer_handler req [] w
  = try_catch_finally
      (result <- query delete_sql [params req !! "custCode"] ;;
       if Nat.eqb (affectedRows result) 0
       then res_status_json 404 (Error "Customer not found")
       else res_json (Message "Customer deleted successfully"))
      (fun err => console_error "Error deleting customer:" ;;
                  res_status_json 500 (Error "Internal server error"))
      release (connected w).
Proof.
  intros Hp. unfold delete_customer_handler, bind at 1.
  rewrite (connect_available w Hp). reflexivity.
Qed.

Lemma not_extended {A} (l : list A) (x : A) : l <> l ++ [x].
Proof.
  intros Heq. apply (f_equal (@length A)) in Heq.
  rewrite length_app in Heq. simpl in Heq. lia.
Qed.

Lemma put_handler_passed req (w : World DB) :
  pool_available w = true ->
  put_company_handler req [] w
  = try_catch_finally
      (result <- query upsert_sql
                   [params req !! "companyId"; body req !! "companyName";
                    body req !! "companyCity"; body req !! "companyName";
                    body req !! "companyCity"] ;;
       if Nat.eqb (affectedRows result) 1 && Nat.eqb (warningStatus result) 0
       then res_status_json 201 (Message "Company added")
       else res_json (Message "Company updated"))
      (fun err => console_error "Error in upsert operation:" ;;
                  res_status_json 500 (Error "Server error"))
      release (connected w).
Proof.
  intros Hp. unfold put_company_handler, bind at 1.
  rewrite (connect_available w Hp). reflexivity.
Qed.

(** The reconciliation of the upsert over any store: a result of one
    affected row and no warning is answered 201 and added, every other
    result 200 and updated. *)
Lemma upsert_reconciled req (w : World DB) text bound result :
  let w' := snd (serve PutCompany req w) in
  executed w' = executed w ++ [mkInteraction text bound (inr result)] ->
  sent w' = sent w ++
    [if Nat.eqb (affectedRows result) 1 && Nat.eqb (warningStatus result) 0
     then mkResponse 201 (Message "Company added")
     else mkResponse 200 (Message "Company updated")].
Proof.
  cbv zeta. rewrite serve_unfold.
  set (req' := fst (run_chains (chains_of PutCompany) req)).
  set (errors := snd (run_chains (chains_of PutCompany) req)).
  destruct (pool_available w) eqn:Hp.
  2:{ destruct (handler_without_connection PutCompany req' errors w Hp)
        as [w1 [-> [_ [Hex _]]]].
      simpl. rewrite Hex. intros Heq. destruct (not_extended _ _ Heq). }
  destruct errors as [|e errors].
  2:{ rewrite (handler_rejects PutCompany req' (e :: errors) w Hp); [|discriminate].
      simpl. intros Heq. destruct (not_extended _ _ Heq). }
  simpl. rewrite (put_handler_passed req' w Hp).
  cbv [try_catch_finally try_catch bind query release res_json res_status_json
       console_error connected].
  simpl.
  destruct (execute _ _ (store w)) as [[err|r] s'].
  - simpl. intros Heq. apply app_inj_tail in Heq as [_ Heq]. discriminate.
  - destruct (Nat.eqb (affectedRows r) 1 && Nat.eqb (warningStatus r) 0) eqn:Hz;
      simpl; intros Heq; apply app_inj_tail in Heq as [_ Heq];
      injection Heq as _ _ <-; rewrite Hz; reflexivity.
Qed.

(** The store after an upsert that passed validation is the store after
    its one statement. *)
Lemma upsert_store req (w : World DB) :
  pool_available w = true ->
  store (snd (put_company_handler req [] w))
  = snd (execute upsert_sql
           [params req !! "companyId"; body req !! "companyName";
            body req !! "companyCity"; body req !! "companyName";
            body req !! "companyCity"] (store w)).
Proof.
  intros Hp. rewrite (put_handler_passed req w Hp).
  cbv [try_catch_finally try_catch bind query release res_json res_status_json
       console_error connected].
  simpl.
  destruct (execute _ _ (store w)) as [[err|r] s']; simpl; [reflexivity|].
  destruct (Nat.eqb (affectedRows r) 1 && Nat.eqb (warningStatus r) 0); reflexivity.
Qed.

Ltac released_once :=
  split; [reflexivity|left; split; [rewrite ?length_app; simpl; lia|reflexivity]].

(** Where the connection is released: a request that executed a statement
    released its connection once, whatever the store answered; a request
    answered 400 before the guarded part did not release it. *)
Lemma release_by_path ep req (w : World DB) :
  pool_available w = true ->
  let w' := snd (serve ep req w) in
  acquired w' = S (acquired w)
  /\ ((length (executed w') = S (length (executed w))
       /\ released w' = S (released w))
      \/ (executed w' = executed w
          /\ released w' = released w
          /\ exists payload, sent w' = sent w ++ [mkResponse 400 payload])).
Proof.
  intros Hp. cbv zeta. rewrite serve_unfold.
  set (req' := fst (run_chains (chains_of ep) req)).
  set (errors := snd (run_chains (chains_of ep) req)).
  destruct errors as [|e errors].
  2:{ rewrite (handler_rejects ep req' (e :: errors) w Hp); [|discriminate].
      simpl. split; [reflexivity|]. right. repeat split; eauto. }
  destruct ep; simpl.
  - rewrite (post_handler_passed req' w Hp).
    cbv [try_catch_finally try_catch bind query release res_json res_status_json
         console_error connected].
    simpl. destruct (execute _ _ (store w)) as [[err|r] s']; simpl;
      released_once.
  - rewrite (patch_handler_passed req' w Hp).
    destruct (negb (truthy (body req' !! "companyName"))
              && negb (truthy (body req' !! "companyCity"))).
    + simpl. split; [reflexivity|]. right. repeat split; eauto.
    + destruct (patch_statement _ _ _) as [q vs].
      cbv [try_catch_finally try_catch bind query release res_json res_status_json
           console_error connected].
      simpl. destruct (execute _ _ (store w)) as [[err|r] s']; simpl.
      * released_once.
      * destruct (Nat.eqb (affectedRows r) 0); simpl;
          released_once.
  - rewrite (put_handler_passed req' w Hp).
    cbv [try_catch_finally try_catch bind query release res_json res_status_json
         console_error connected].
    simpl. destruct (execute _ _ (store w)) as [[err|r] s']; simpl.
    + released_once.
    + destruct (Nat.eqb (affectedRows r) 1 && Nat.eqb (warningStatus r) 0); simpl;
        released_once.
  - rewrite (delete_handler_passed req' w Hp).
    cbv [try_catch_finally try_catch bind query release res_json res_status_json
         console_error connected].
    simpl. destruct (execute _ _ (store w)) as [[err|r] s']; simpl.
    + released_once.
    + destruct (Nat.eqb (affectedRows r) 0); simpl;
        released_once.
Qed.

(** The chain every attribute field goes through, in normal form. *)
Lemma attribute_chain name :
  (body_ name |> trim |> isLength 1 25 |> escape)
  = mkChain Body name
      [Sanitizer Validator.trim;
       StandardValidator (Validator.isLength 1 25) default_message;
       Sanitizer Validator.escape].
Proof. reflexivity. Qed.

Lemma keyed_company_chains ep :
  ep = PatchCompany \/ ep = PutCompany ->
  chains_of ep
  = [mkChain Params "companyId"
       [Sanitizer Validator.trim;
        StandardValidator (Validator.isLength 1 6)
          "ID must be between 1 and 6 characters";
        Sanitizer Validator.escape];
     mkChain Body "companyName"
       [Sanitizer Validator.trim;
        StandardValidator (Validator.isLength 1 25) default_message;
        Sanitizer Validator.escape];
     mkChain Body "companyCity"
       [Sanitizer Validator.trim;
        StandardValidator (Validator.isLength 1 25) default_message;
        Sanitizer Validator.escape]].
Proof. intros [-> | ->]; reflexivity. Qed.

(** An attribute field that is absent is checked as the empty string: the
    request is answered 400 with an entry for that field, and no statement
    is executed.  This holds on the three company routes alike. *)
Lemma absent_attribute_rejected ep name req (w : World DB) :
  ep <> DeleteCustomer ->
  name = "companyName" \/ name = "companyCity" ->
  body req !! name = None ->
  pool_available w = true ->
  In (mkError Body name default_message (Some EmptyString))
     (snd (run_chains (chains_of ep) req))
  /\ sent (snd (serve ep req w))
     = sent w ++ [mkResponse 400 (Errors (snd (run_chains (chains_of ep) req)))]
  /\ executed (snd (serve ep req w)) = executed w.
Proof.
  intros Hep Hname Habsent Hp.
  assert (Hin : In (mkError Body name default_message (Some EmptyString))
                   (snd (run_chains (chains_of ep) req))).
  { rewrite (run_chains_errors _ _ (chains_distinct ep)).
    apply in_flat_map. exists (body_ name |> trim |> isLength 1 25 |> escape).
    split.
    - destruct ep; [| | |congruence]; destruct Hname as [-> | ->]; simpl; tauto.
    - rewrite run_chain_errors, attribute_chain. simpl chain_stack.
      rewrite trimmed_chain_items. simpl field_of. rewrite Habsent.
      left; reflexivity. }
  split; [exact Hin|].
  rewrite serve_unfold, handler_rejects; [split; reflexivity|exact Hp|].
  intros Hnil. rewrite Hnil in Hin. destruct Hin.
Qed.

(** C5, as amended: the upsert has no presence precondition of its own,
    but each attribute field goes through trim, length 1 to 25 and escape
    whether it was sent or not; an absent attribute is checked as the empty
    string, so, the pool being able to lease a connection, the request is
    rejected with 400 and an errors entry for that field, and no statement
    is executed. *)
Theorem upsert_attribute_absent_rejected name req (w : World DB) :
  name = "companyName" \/ name = "companyCity" ->
  body req !! name = None ->
  pool_available w = true ->
  exists errors,
    sent (snd (serve PutCompany req w)) = sent w ++ [mkResponse 400 (Errors errors)]
    /\ In (mkError Body name "Invalid value" (Some EmptyString)) errors
    /\ executed (snd (serve PutCompany req w)) = executed w.
Proof.
  intros Hname Habsent Hp.
  destruct (absent_attribute_rejected PutCompany name req w) as [Hin [Hsent Hex]];
    try assumption; [discriminate|].
  eexists. split; [exact Hsent|]. split; [exact Hin|exact Hex].
Qed.

(** Once the chains of PATCH or PUT recorded no error, the key and both
    attribute fields of the request are non-empty strings. *)
Lemma passed_fields_truthy ep req :
  ep = PatchCompany \/ ep = PutCompany ->
  snd (run_chains (chains_of ep) req) = [] ->
  let req' := fst (run_chains (chains_of ep) req) in
  truthy (params req' !! "companyId") = true
  /\ truthy (body req' !! "companyName") = true
  /\ truthy (body req' !! "companyCity") = true.
Proof.
  intros Hep Hpass.
  pose proof (chains_distinct ep) as Hnd.
  rewrite (run_chains_errors _ _ Hnd) in Hpass.
  rewrite (keyed_company_chains ep Hep) in *.
  simpl in Hpass. rewrite !run_chain_errors in Hpass. simpl in Hpass.
  destruct (Validator.isLength 1 6 (Validator.trim (toString (params req !! "companyId"))))
    eqn:Hid; [|discriminate].
  destruct (Validator.isLength 1 25 (Validator.trim (toString (body req !! "companyName"))))
    eqn:Hn; [|discriminate].
  destruct (Validator.isLength 1 25 (Validator.trim (toString (body req !! "companyCity"))))
    eqn:Hc; [|discriminate].
  pose proof (trimmed_chain_field _ req Params "companyId" 1 6 _ Hnd
                ltac:(simpl; tauto)) as Fid.
  pose proof (trimmed_chain_field _ req Body "companyName" 1 25 _ Hnd
                ltac:(simpl; tauto)) as Fn.
  pose proof (trimmed_chain_field _ req Body "companyCity" 1 25 _ Hnd
                ltac:(simpl; tauto)) as Fc.
  unfold field_of in Fid, Fn, Fc. cbv zeta. rewrite Fid, Fn, Fc.
  repeat split; eapply escape_truthy; eassumption.
Qed.

(** The precondition branch of PATCH is never the one that answers: a
    request without attribute fields is stopped by the chains before it. *)
Lemma patch_precondition_dead req (w : World DB) :
  sent (snd (serve PatchCompany req w))
  <> sent w ++
     [mkResponse 400
        (Error "Provide at least one field to update (companyName or companyCity)")].
Proof.
  rewrite serve_unfold.
  pose proof (passed_fields_truthy PatchCompany req (or_introl eq_refl)) as Hpassed.
  set (req' := fst (run_chains (chains_of PatchCompany) req)) in *.
  set (errors := snd (run_chains (chains_of PatchCompany) req)) in *.
  destruct (pool_available w) eqn:Hp.
  2:{ destruct (handler_without_connection PatchCompany req' errors w Hp)
        as [w1 [-> [Hsent _]]].
      simpl. rewrite Hsent. apply not_extended. }
  destruct errors as [|e errors].
  2:{ rewrite (handler_rejects PatchCompany req' (e :: errors) w Hp); [|discriminate].
      simpl. intros Heq. apply app_inj_tail in Heq as [_ Heq]. discriminate. }
  destruct (Hpassed eq_refl) as [_ [Hn Hc]]. simpl.
  rewrite (patch_handler_passed req' w Hp), Hn, Hc. simpl.
  destruct (patch_statement _ _ _) as [q vs].
  cbv [try_catch_finally try_catch bind query release res_json res_status_json
       console_error connected].
  simpl. destruct (execute _ _ (store w)) as [[err|r] s']; simpl.
  - intros Heq. apply app_inj_tail in Heq as [_ Heq]. discriminate.
  - destruct (Nat.eqb (affectedRows r) 0); simpl;
      intros Heq; apply app_inj_tail in Heq as [_ Heq]; discriminate.
Qed.

End AnyStore.

End Pipeline.

(** ** The statement of the partial update *)

Module Builder.
Import Server MariaDB Deployment.

(** C8: the text of the partial-update statement depends only on which
    attribute fields are present, never on their values: two validated
    field sets with the same presence pattern give the same text, which is
    the UPDATE over the supplied columns matched on the key, and the values
    appear only in the bound list, in order, the key last. *)
Theorem patch_statement_text_by_presence id1 n1 c1 id2 n2 c2 :
  validated n1 -> validated c1 -> validated n2 -> validated c2 ->
  present n1 = present n2 ->
  present c1 = present c2 ->
  fst (patch_statement id1 n1 c1) = fst (patch_statement id2 n2 c2)
  /\ fst (patch_statement id1 n1 c1) = render (Update (supplied_columns n1 c1))
  /\ snd (patch_statement id1 n1 c1) = List.filter present [n1; c1] ++ [id1].
Proof.
  unfold validated.
  destruct n1 as [[|a1 s1]|], c1 as [[|b1 t1]|], n2 as [[|a2 s2]|], c2 as [[|b2 t2]|];
    simpl; intros; try discriminate; repeat split; reflexivity.
Qed.

End Builder.

(** ** The upsert against the tables *)

Module Store.
Import ExpressValidator Runtime Server MariaDB Deployment Pipeline.

Lemma parse_upsert_sql : parse upsert_sql = Some (Insert [NAME; CITY]).
Proof. reflexivity. Qed.

(** Rewriting the two attribute columns of the rows with key [k]: every
    row keeps its key, the other rows are untouched. *)
Lemma rewrite_attributes k n c rows :
  exists rows' matched changed,
    rewrite_rows k (assign_all [NAME; CITY] [n; c]) rows = Some (rows', matched, changed)
    /\ Forall2 (fun r r' =>
                  COMPANY_ID r' = COMPANY_ID r
                  /\ (COMPANY_ID r <> k -> r' = r)
                  /\ (COMPANY_ID r = k -> r' = mkCompany k n c))
               rows rows'.
Proof.
  induction rows as [|r rows IH].
  - exists [], 0, 0. split; [reflexivity|constructor].
  - destruct IH as [rows' [matched [changed [Hrw Hall]]]].
    cbn [rewrite_rows]. rewrite Hrw.
    destruct (String.eqb (COMPANY_ID r) k) eqn:Hk.
    + apply String.eqb_eq in Hk. simpl. do 3 eexists. split; [reflexivity|].
      constructor; [|exact Hall]. simpl.
      split; [reflexivity|]. split; [congruence|]. intros _. rewrite Hk. reflexivity.
    + apply String.eqb_neq in Hk. do 3 eexists. split; [reflexivity|].
      constructor; [|exact Hall]. split; [reflexivity|]. split; [reflexivity|congruence].
Qed.

Lemma same_keys (P : CompanyRow -> CompanyRow -> Prop) rows rows' :
  (forall r r', P r r' -> COMPANY_ID r' = COMPANY_ID r) ->
  Forall2 P rows rows' ->
  map COMPANY_ID rows' = map COMPANY_ID rows.
Proof.
  intros HP Hall. induction Hall as [|r r' rows rows' Hr _ IH]; [reflexivity|].
  simpl. rewrite IH, (HP _ _ Hr). reflexivity.
Qed.

(** C9: an upsert on a key that is already in the table rewrites the two
    attribute columns of the row with that key and nothing else: every row
    keeps its key, the rows with another key are unchanged, the keys remain
    unique and the customer table is untouched. *)
Theorem upsert_existing_key_frame req (w : World Database) k :
  pool_available w = true ->
  snd (run_chains (chains_of PutCompany) req) = [] ->
  params (fst (run_chains (chains_of PutCompany) req)) !! "companyId" = Some k ->
  has_key k (company (store w)) = true ->
  NoDup (map COMPANY_ID (company (store w))) ->
  let req' := fst (run_chains (chains_of PutCompany) req) in
  let db' := store (snd (serve PutCompany req w)) in
  Forall2 (fun r r' =>
             COMPANY_ID r' = COMPANY_ID r
             /\ (COMPANY_ID r <> k -> r' = r)
             /\ (COMPANY_ID r = k ->
                 r' = mkCompany k (body req' !! "companyName") (body req' !! "companyCity")))
          (company (store w)) (company db')
  /\ NoDup (map COMPANY_ID (company db'))
  /\ customer db' = customer (store w).
Proof.
  intros Hp Hpass Hk Hhas Hnd. cbv zeta.
  rewrite serve_unfold, Hpass.
  set (req' := fst (run_chains (chains_of PutCompany) req)) in *.
  simpl handler_of. rewrite (upsert_store req' w Hp), Hk.
  destruct (rewrite_attributes k (body req' !! "companyName")
              (body req' !! "companyCity") (company (store w)))
    as [rows' [matched [changed [Hrw Hall]]]].
  assert (Hkeys : map COMPANY_ID rows' = map COMPANY_ID (company (store w))).
  { apply (same_keys _ _ _ (fun r r' Hr => proj1 Hr) Hall). }
  assert (Hunique : unique_keys rows' = true).
  { apply bool_decide_eq_true. rewrite Hkeys. exact Hnd. }
  unfold execute, driver. rewrite parse_upsert_sql.
  unfold run. rewrite Hhas, Hrw, Hunique. simpl.
  split; [exact Hall|]. split; [|reflexivity].
  rewrite Hkeys. exact Hnd.
Qed.

End Store.

(** ** The deployed server on concrete requests *)

Module Scenarios.
Import ExpressValidator Runtime Server MariaDB Deployment.

(** C1: the reconciliation answers 201 and added exactly when the store
    reports one affected row and no warning.  With the pool of server.js
    the session counts found rows, so the second, identical upsert of C1 is
    reported as one affected row without warning and is answered 201 and
    added again, where the claim asks for 200 and updated. *)
Theorem second_identical_upsert_answered_added :
  let w1 := snd (serve PutCompany put_acme fresh_world) in
  let w2 := snd (serve PutCompany put_acme w1) in
  sent w1 = [mkResponse 201 (Message "Company added")]
  /\ company (store w1) = [acme]
  /\ map outcome (executed w2) = [inr (mkResult 1 0); inr (mkResult 1 0)]
  /\ sent w2 = [mkResponse 201 (Message "Company added");
                mkResponse 201 (Message "Company added")]
  /\ company (store w2) = [acme].
Proof. vm_compute. repeat split; reflexivity. Qed.

(** An upsert that changes a stored attribute is answered 200. *)
Lemma changing_upsert_answered_updated :
  let w' := snd (serve PutCompany move_acme acme_world) in
  map outcome (executed w') = [inr (mkResult 2 0)]
  /\ sent w' = [mkResponse 200 (Message "Company updated")].
Proof. vm_compute. split; reflexivity. Qed.

(** On a session that counts changed rows instead, the identical upsert is
    reported as zero rows and answered 200. *)
Lemma identical_upsert_without_found_rows :
  let opts := mkOptions "localhost" "root" "root" "sample" 3306%N 100%N 30000%N
                        (Some false) in
  let w' := snd (serve PutCompany put_acme (createPool opts [acme] [])) in
  map outcome (executed w') = [inr (mkResult 0 0)]
  /\ sent w' = [mkResponse 200 (Message "Company updated")].
Proof. vm_compute. split; reflexivity. Qed.

(** C2: a request rejected by validation has acquired its connection and
    ends without releasing it: the 400 is returned before the guarded part
    whose finally clause holds the release. *)
Theorem rejected_request_keeps_connection :
  let w' := snd (serve PostCompany long_key fresh_world) in
  sent w' = [mkResponse 400
               (Errors [mkError Body "companyId" "Invalid value" (Some "ABCDEFG")])]
  /\ acquired w' = 1
  /\ released w' = 0
  /\ executed w' = [].
Proof. vm_compute. repeat split; reflexivity. Qed.

(** The same route on a valid request releases the connection once. *)
Lemma accepted_request_releases_connection :
  let req := mkRequest ∅ {["companyId" := "C2"; "companyName" := "Acme"; "companyCity" := "NY"]} in
  let w' := snd (serve PostCompany req acme_world) in
  sent w' = [mkResponse 201 (Message "Company successfully added")]
  /\ acquired w' = 1
  /\ released w' = 1.
Proof. vm_compute. repeat split; reflexivity. Qed.

(** C3 fails as stated: the rejected request has acquired a connection. *)
Lemma validation_rejected_after_acquisition :
  ~ (snd (run_chains (chains_of PostCompany) long_key) <> [] ->
     acquired (snd (serve PostCompany long_key fresh_world)) = acquired fresh_world).
Proof.
  intros Hclaim.
  assert (Hfails : snd (run_chains (chains_of PostCompany) long_key) <> [])
    by (vm_compute; discriminate).
  specialize (Hclaim Hfails). vm_compute in Hclaim. discriminate.
Qed.

(** C4: a PATCH that supplies one valid attribute for an existing key is
    answered 400: the chain of the other attribute checks the absent field
    as the empty string.  No statement is executed and the row is as it
    was. *)
Theorem patch_with_one_attribute_rejected :
  let w' := snd (serve PatchCompany name_only acme_world) in
  sent w' = [mkResponse 400
               (Errors [mkError Body "companyCity" "Invalid value" (Some EmptyString)])]
  /\ executed w' = []
  /\ company (store w') = [acme].
Proof. vm_compute. repeat split; reflexivity. Qed.

(** C5 fails as stated: the upsert without a city is rejected by
    validation. *)
Lemma upsert_without_city_rejected :
  ~ (body name_only !! "companyCity" = None ->
     snd (run_chains (chains_of PutCompany) name_only) = [])
  /\ sent (snd (serve PutCompany name_only fresh_world))
     = [mkResponse 400
          (Errors [mkError Body "companyCity" "Invalid value" (Some EmptyString)])].
Proof.
  split; [|vm_compute; reflexivity].
  intros Hclaim.
  assert (Habsent : body name_only !! "companyCity" = None) by (vm_compute; reflexivity).
  specialize (Hclaim Habsent). vm_compute in Hclaim. discriminate.
Qed.

(** C10: a PATCH that supplies neither attribute is answered 400 with the
    errors list of the chains, one entry per attribute, and not with the
    single error message of the precondition, which is never reached. *)
Theorem patch_without_attributes_gets_error_list :
  let w' := snd (serve PatchCompany no_attribute acme_world) in
  sent w' = [mkResponse 400
               (Errors [mkError Body "companyName" "Invalid value" (Some EmptyString);
                        mkError Body "companyCity" "Invalid value" (Some EmptyString)])]
  /\ executed w' = [].
Proof. vm_compute. split; reflexivity. Qed.

End Scenarios.

(** ** The general statements at concrete requests *)

Module Instances.
Import ExpressValidator Runtime Server MariaDB Deployment.

(** The rejected POST with a key of seven characters. *)
Lemma validation_rejection_precedes_statement_at_long_key :
  pool_available fresh_world = true
  /\ snd (run_chains (chains_of PostCompany) long_key) <> []
  /\ fst (serve PostCompany long_key fresh_world) = Normal tt
  /\ sent (snd (serve PostCompany long_key fresh_world))
     = sent fresh_world
       ++ [mkResponse 400 (Errors (snd (run_chains (chains_of PostCompany) long_key)))]
  /\ executed (snd (serve PostCompany long_key fresh_world)) = executed fresh_world
  /\ store (snd (serve PostCompany long_key fresh_world)) = store fresh_world
  /\ acquired (snd (serve PostCompany long_key fresh_world))
     = S (acquired fresh_world).
Proof.
  split; [reflexivity|]. split; [vm_compute; discriminate|].
  apply (Pipeline.validation_rejection_precedes_statement
           PostCompany long_key fresh_world);
    [reflexivity|vm_compute; discriminate].
Defined.

(** The upsert that carries a name and no city. *)
Lemma upsert_attribute_absent_rejected_at_name_only :
  ("companyCity" = "companyName" \/ "companyCity" = "companyCity")
  /\ body name_only !! "companyCity" = None
  /\ pool_available fresh_world = true
  /\ exists errors,
       sent (snd (serve PutCompany name_only fresh_world))
       = sent fresh_world ++ [mkResponse 400 (Errors errors)]
       /\ In (mkError Body "companyCity" "Invalid value" (Some EmptyString)) errors
       /\ executed (snd (serve PutCompany name_only fresh_world)) = executed fresh_world.
Proof.
  split; [right; reflexivity|]. split; [vm_compute; reflexivity|].
  split; [reflexivity|].
  apply (Pipeline.upsert_attribute_absent_rejected "companyCity" name_only fresh_world);
    [right; reflexivity|vm_compute; reflexivity|reflexivity].
Defined.

(** The POST whose three fields all fail: three entries, in order. *)
Lemma validation_errors_reported_in_full_at_long_key_only :
  pool_available fresh_world = true
  /\ 2 <= length (List.filter (fun c => rule_fails c long_key_only)
                    (chains_of PostCompany))
  /\ exists errors,
       sent (snd (serve PostCompany long_key_only fresh_world))
       = sent fresh_world ++ [mkResponse 400 (Errors errors)]
       /\ errors = flat_map (fun c => snd (run_chain c long_key_only))
                     (chains_of PostCompany)
       /\ map (fun e => (location e, path e)) errors
          = map key (List.filter (fun c => rule_fails c long_key_only)
                       (chains_of PostCompany))
       /\ length errors
          = length (List.filter (fun c => rule_fails c long_key_only)
                      (chains_of PostCompany)).
Proof.
  split; [reflexivity|]. split; [vm_compute; lia|].
  apply (Pipeline.validation_errors_reported_in_full
           PostCompany long_key_only fresh_world);
    [reflexivity|vm_compute; lia].
Defined.

(** Two partial updates of the name alone, with different values. *)
Lemma patch_statement_text_by_presence_at_name :
  validated (Some "Acme") /\ validated None
  /\ validated (Some "Globex") /\ validated None
  /\ present (Some "Acme") = present (Some "Globex")
  /\ present (@None string) = present (@None string)
  /\ fst (patch_statement (Some "C1") (Some "Acme") None)
     = fst (patch_statement (Some "C2") (Some "Globex") None)
  /\ fst (patch_statement (Some "C1") (Some "Acme") None)
     = render (Update (supplied_columns (Some "Acme") None))
  /\ snd (patch_statement (Some "C1") (Some "Acme") None)
     = List.filter present [Some "Acme"; None] ++ [Some "C1"].
Proof.
  do 6 (split; [reflexivity|]).
  apply (Builder.patch_statement_text_by_presence
           (Some "C1") (Some "Acme") None (Some "C2") (Some "Globex") None);
    reflexivity.
Defined.

(** The upsert of the stored company with a new name and city. *)
Lemma upsert_existing_key_frame_at_move_acme :
  pool_available acme_world = true
  /\ snd (run_chains (chains_of PutCompany) move_acme) = []
  /\ params (fst (run_chains (chains_of PutCompany) move_acme)) !! "companyId" = Some "C1"
  /\ has_key "C1" (company (store acme_world)) = true
  /\ NoDup (map COMPANY_ID (company (store acme_world)))
  /\ Forall2 (fun r r' =>
                COMPANY_ID r' = COMPANY_ID r
                /\ (COMPANY_ID r <> "C1" -> r' = r)
                /\ (COMPANY_ID r = "C1" ->
                    r' = mkCompany "C1"
                           (body (fst (run_chains (chains_of PutCompany) move_acme))
                              !! "companyName")
                           (body (fst (run_chains (chains_of PutCompany) move_acme))
                              !! "companyCity")))
             (company (store acme_world))
             (company (store (snd (serve PutCompany move_acme acme_world))))
  /\ NoDup (map COMPANY_ID (company (store (snd (serve PutCompany move_acme acme_world)))))
  /\ customer (store (snd (serve PutCompany move_acme acme_world)))
     = customer (store acme_world).
Proof.
  split; [reflexivity|]. split; [vm_compute; reflexivity|].
  split; [vm_compute; reflexivity|]. split; [reflexivity|].
  split; [apply (bool_decide_unpack _); vm_compute; exact I|].
  apply (Store.upsert_existing_key_frame move_acme acme_world "C1");
    [reflexivity|vm_compute; reflexivity|vm_compute; reflexivity|reflexivity
    |apply (bool_decide_unpack _); vm_compute; exact I].
Defined.

End Instances.

(** ** Every path of a route, over any store *)

Module Conduct.
Import ExpressValidator Runtime Server Chains Pipeline Outcome.

Lemma post_company_chains_normal :
  chains_of PostCompany
  = [mkChain Body "companyId"
       [Sanitizer Validator.trim;
        StandardValidator (Validator.isLength 1 6) default_message;
        Sanitizer Validator.escape];
     mkChain Body "companyName"
       [Sanitizer Validator.trim;
        StandardValidator (Validator.isLength 1 25) default_message;
        Sanitizer Validator.escape];
     mkChain Body "companyCity"
       [Sanitizer Validator.trim;
        StandardValidator (Validator.isLength 1 25) default_message;
        Sanitizer Validator.escape]].
Proof. reflexivity. Qed.

Lemma delete_customer_chains_normal :
  chains_of DeleteCustomer
  = [mkChain Params "custCode"
       [StandardValidator (Validator.isLength 6 6)
          "Customer code must be 6 characters long"]].
Proof. reflexivity. Qed.

Lemma chains_normal ep :
  chains_of ep
  = match ep with
    | DeleteCustomer =>
        [mkChain Params "custCode"
           [StandardValidator (Validator.isLength 6 6)
              "Customer code must be 6 characters long"]]
    | _ =>
        [mkChain (match ep with PostCompany => Body | _ => Params end) "companyId"
           [Sanitizer Validator.trim;
            StandardValidator (Validator.isLength 1 6)
              (match ep with
               | PostCompany => default_message
               | _ => "ID must be between 1 and 6 characters"
               end);
            Sanitizer Validator.escape];
         mkChain Body "companyName"
           [Sanitizer Validator.trim;
            StandardValidator (Validator.isLength 1 25) default_message;
            Sanitizer Validator.escape];
         mkChain Body "companyCity"
           [Sanitizer Validator.trim;
            StandardValidator (Validator.isLength 1 25) default_message;
            Sanitizer Validator.escape]]
    end.
Proof. destruct ep; reflexivity. Qed.

(** The chains of a route record no error exactly on the requests the
    route accepts. *)
Lemma errors_by_acceptance ep req :
  snd (run_chains (chains_of ep) req) = [] <-> accepts ep req = true.
Proof.
  rewrite (run_chains_errors _ _ (chains_distinct ep)), chains_normal.
  unfold accepts, within.
  destruct ep; simpl; rewrite !run_chain_errors; simpl;
    repeat match goal with
           | |- context [Validator.isLength ?a ?b ?s] =>
               destruct (Validator.isLength a b s)
           end; simpl; split; intros; congruence.
Qed.

(** X5: the chains of a route record no error exactly when the key and
    both attributes have a trimmed length within their bounds (an absent
    field counting as empty), and for DELETE when the customer code has
    exactly six characters. *)
Theorem validation_passes_iff ep req :
  snd (run_chains (chains_of ep) req) = []
  <-> match ep with
      | PostCompany =>
          within 1 6 (body req !! "companyId")
          && within 1 25 (body req !! "companyName")
          && within 1 25 (body req !! "companyCity")
      | PatchCompany | PutCompany =>
          within 1 6 (params req !! "companyId")
          && within 1 25 (body req !! "companyName")
          && within 1 25 (body req !! "companyCity")
      | DeleteCustomer => Validator.isLength 6 6 (toString (params req !! "custCode"))
      end = true.
Proof. exact (errors_by_acceptance ep req). Qed.

End Conduct.

(** ** The three ways a request ends *)

Module Paths.
Import ExpressValidator Runtime Server Chains Pipeline Outcome Conduct.

Section AnyStore.
Context {DB : Type} `{Driver DB}.

Lemma serve_refused ep req (w : World DB) :
  pool_available w = false ->
  serve ep req w = (Throw "Internal server error", refused w).
Proof.
  intros Hp. rewrite serve_unfold.
  destruct ep; simpl;
    unfold post_company_handler, patch_company_handler, put_company_handler,
      delete_customer_handler, bind;
    rewrite (connect_unavailable w Hp); reflexivity.
Qed.

Lemma serve_rejected ep req (w : World DB) :
  pool_available w = true ->
  accepts ep req = false ->
  serve ep req w = (Normal tt, rejected (snd (run_chains (chains_of ep) req)) w)
  /\ snd (run_chains (chains_of ep) req) <> [].
Proof.
  intros Hp Hrej.
  assert (Hne : snd (run_chains (chains_of ep) req) <> []).
  { intros Hnil. apply errors_by_acceptance in Hnil. congruence. }
  split; [|exact Hne].
  rewrite serve_unfold. apply handler_rejects; assumption.
Qed.

(** The fields of an accepted company request after the chains. *)
Lemma accepted_fields ep req :
  ep <> DeleteCustomer ->
  let req' := fst (run_chains (chains_of ep) req) in
  field_of req' (match ep with PostCompany => Body | _ => Params end) "companyId"
  = Some (sanitized (field_of req (match ep with PostCompany => Body | _ => Params end)
                       "companyId"))
  /\ body req' !! "companyName" = Some (sanitized (body req !! "companyName"))
  /\ body req' !! "companyCity" = Some (sanitized (body req !! "companyCity")).
Proof.
  intros Hep. cbv zeta.
  pose proof (chains_distinct ep) as Hnd.
  destruct ep; try congruence.
  - rewrite post_company_chains_normal in *.
    pose proof (trimmed_chain_field _ req Body "companyId" 1 6 _ Hnd
                  ltac:(simpl; tauto)) as Fid.
    pose proof (trimmed_chain_field _ req Body "companyName" 1 25 _ Hnd
                  ltac:(simpl; tauto)) as Fn.
    pose proof (trimmed_chain_field _ req Body "companyCity" 1 25 _ Hnd
                  ltac:(simpl; tauto)) as Fc.
    unfold field_of in *. auto.
  - rewrite (keyed_company_chains PatchCompany (or_introl eq_refl)) in *.
    pose proof (trimmed_chain_field _ req Params "companyId" 1 6 _ Hnd
                  ltac:(simpl; tauto)) as Fid.
    pose proof (trimmed_chain_field _ req Body "companyName" 1 25 _ Hnd
                  ltac:(simpl; tauto)) as Fn.
    pose proof (trimmed_chain_field _ req Body "companyCity" 1 25 _ Hnd
                  ltac:(simpl; tauto)) as Fc.
    unfold field_of in *. auto.
  - rewrite (keyed_company_chains PutCompany (or_intror eq_refl)) in *.
    pose proof (trimmed_chain_field _ req Params "companyId" 1 6 _ Hnd
                  ltac:(simpl; tauto)) as Fid.
    pose proof (trimmed_chain_field _ req Body "companyName" 1 25 _ Hnd
                  ltac:(simpl; tauto)) as Fn.
    pose proof (trimmed_chain_field _ req Body "companyCity" 1 25 _ Hnd
                  ltac:(simpl; tauto)) as Fc.
    unfold field_of in *. auto.
Qed.

Lemma sanitized_truthy min max v :
  within (S min) max v = true -> exists a s, sanitized v = String a s.
Proof.
  intros Hw. pose proof (escape_truthy _ _ _ Hw) as Ht. unfold sanitized.
  destruct (Validator.escape _) as [|a s]; [discriminate|eauto].
Qed.

Lemma delete_request_untouched req :
  fst (run_chains (chains_of DeleteCustomer) req) = req.
Proof.
  rewrite delete_customer_chains_normal. simpl. unfold run_chain. simpl.
  destruct (params req !! "custCode") as [code|] eqn:Hc; simpl.
  - destruct (Validator.isLength 6 6 code); simpl;
      destruct (decide (Some code = Some code)); try congruence; reflexivity.
  - destruct (Validator.isLength 6 6 EmptyString); reflexivity.
Qed.

Lemma serve_accepted ep req (w : World DB) :
  pool_available w = true ->
  accepts ep req = true ->
  serve ep req w
  = (Normal tt,
     settled ep req
       (fst (execute (fst (bound_statement ep req)) (snd (bound_statement ep req))
               (store w)))
       (snd (execute (fst (bound_statement ep req)) (snd (bound_statement ep req))
               (store w)))
       w).
Proof.
  intros Hp Hacc.
  pose proof (proj2 (errors_by_acceptance ep req) Hacc) as Hpass.
  rewrite serve_unfold, Hpass.
  pose proof (accepted_fields ep req) as Hf.
  pose proof delete_request_untouched req as Hd.
  cbv zeta in Hf. set (req' := fst (run_chains (chains_of ep) req)) in *.
  destruct ep.
  - destruct (Hf ltac:(discriminate)) as [Fid [Fn Fc]].
    cbv beta iota delta [field_of] in Fid. simpl handler_of. rewrite (post_handler_passed _ w Hp), Fid, Fn, Fc.
    cbv [try_catch_finally try_catch bind query release res_json res_status_json
         console_error connected settled bound_statement fst snd].
    simpl. destruct (execute _ _ (store w)) as [[err|r] db']; reflexivity.
  - destruct (Hf ltac:(discriminate)) as [Fid [Fn Fc]].
    cbv beta iota delta [field_of] in Fid. simpl handler_of. rewrite (patch_handler_passed _ w Hp), Fid, Fn, Fc.
    unfold accepts in Hacc. apply andb_prop in Hacc as [Hacc Hc].
    apply andb_prop in Hacc as [_ Hn].
    unfold settled, bound_statement. cbn [fst snd].
    destruct (sanitized_truthy _ _ _ Hn) as [a [s ->]].
    destruct (sanitized_truthy _ _ _ Hc) as [b [t ->]].
    cbv [try_catch_finally try_catch bind query release res_json res_status_json
         console_error connected settled bound_statement fst snd truthy negb andb
         patch_statement].
    simpl. destruct (execute _ _ (store w)) as [[err|r] db']; simpl; [reflexivity|].
    destruct (Nat.eqb (affectedRows r) 0); reflexivity.
  - destruct (Hf ltac:(discriminate)) as [Fid [Fn Fc]].
    cbv beta iota delta [field_of] in Fid. simpl handler_of. rewrite (put_handler_passed _ w Hp), Fid, Fn, Fc.
    cbv [try_catch_finally try_catch bind query release res_json res_status_json
         console_error connected settled bound_statement fst snd].
    simpl. destruct (execute _ _ (store w)) as [[err|r] db']; simpl; [reflexivity|].
    destruct (Nat.eqb (affectedRows r) 1 && Nat.eqb (warningStatus r) 0); reflexivity.
  - subst req'. rewrite Hd.
    simpl handler_of. rewrite (delete_handler_passed _ w Hp).
    cbv [try_catch_finally try_catch bind query release res_json res_status_json
         console_error connected settled bound_statement fst snd].
    simpl. destruct (execute _ _ (store w)) as [[err|r] db']; simpl; [reflexivity|].
    destruct (Nat.eqb (affectedRows r) 0); reflexivity.
Qed.

End AnyStore.

End Paths.

(** ** The answer of a keyed mutation to the result of its statement *)

Module Reconciliation.
Import ExpressValidator Runtime Server Chains Pipeline Outcome Conduct Paths.

Section AnyStore.
Context {DB : Type} `{Driver DB}.

(** C7: a keyed mutation (PATCH company, DELETE customer) that passed
    validation executes its one statement against the store, and when the
    store answers it with a result, zero affected rows give the 404 and one
    or more give the 200 with the update or deletion message. *)
Theorem keyed_mutation_answer ep req (w : World DB) result db' :
  ep = PatchCompany \/ ep = DeleteCustomer ->
  pool_available w = true ->
  snd (run_chains (chains_of ep) req) = [] ->
  execute (fst (bound_statement ep req)) (snd (bound_statement ep req)) (store w)
  = (inr result, db') ->
  let w' := snd (serve ep req w) in
  executed w'
  = executed w
    ++ [mkInteraction (fst (bound_statement ep req)) (snd (bound_statement ep req))
          (inr result)]
  /\ store w' = db'
  /\ sent w'
     = sent w
       ++ [if Nat.eqb (affectedRows result) 0
           then mkResponse 404
                  (Error match ep with
                         | PatchCompany => "Company not found"
                         | _ => "Customer not found"
                         end)
           else mkResponse 200
                  (Message match ep with
                           | PatchCompany => "Company updated successfully"
                           | _ => "Customer deleted successfully"
                           end)].
Proof.
  intros Hep Hp Hpass Hexec. cbv zeta.
  pose proof (proj1 (errors_by_acceptance ep req) Hpass) as Hacc.
  rewrite (serve_accepted ep req w Hp Hacc), Hexec. simpl.
  split; [reflexivity|]. split; [reflexivity|].
  destruct Hep as [-> | ->]; simpl;
    destruct (Nat.eqb (affectedRows result) 0); reflexivity.
Qed.

End AnyStore.

End Reconciliation.

(** ** What every request to a mutation route gets, over any store *)

Module Guarantees.
Import ExpressValidator Runtime Server Chains Pipeline Outcome Conduct Paths.

(** A string made of white-space characters only is trimmed to nothing. *)
Lemma ltrim_white_space c rest :
  In c white_space -> Validator.ltrim (c +:+ rest) = Validator.ltrim rest.
Proof.
  unfold white_space. simpl.
  intros Hin.
  repeat (destruct Hin as [<- | Hin]; [reflexivity|]).
  destruct Hin.
Qed.

Lemma trim_white_space l :
  Forall (fun c => In c white_space) l ->
  Validator.trim (fold_right String.append EmptyString l) = EmptyString.
Proof.
  intros Hall. unfold Validator.trim.
  assert (Hl : Validator.ltrim (fold_right String.append EmptyString l) = EmptyString).
  { induction Hall as [|c l Hc _ IH]; [reflexivity|].
    simpl. rewrite (ltrim_white_space c _ Hc). exact IH. }
  rewrite Hl. reflexivity.
Qed.

Section AnyStore.
Context {DB : Type} `{Driver DB}.

(** X1: when the pool cannot lease a connection, a mutation route sends no
    response at all: the handler throws before it reads the validation
    result, whatever the request; nothing is executed and the only trace is
    the console line of connectToDatabase. *)
Theorem refused_request_unanswered ep req (w : World DB) :
  pool_available w = false ->
  let w' := snd (serve ep req w) in
  fst (serve ep req w) = Throw "Internal server error"
  /\ sent w' = sent w
  /\ executed w' = executed w
  /\ store w' = store w
  /\ acquired w' = acquired w
  /\ released w' = released w
  /\ console w' = console w ++ ["Database connection error:"].
Proof.
  intros Hp. cbv zeta. rewrite (serve_refused ep req w Hp).
  simpl. repeat split; reflexivity.
Qed.

(** X2: when the pool can lease a connection, every request to a mutation
    route gets exactly one response, and its status is one of the statuses
    of the route: 201, 400, 500 for POST; 200, 400, 404, 500 for PATCH and
    DELETE; 200, 201, 400, 500 for PUT. *)
Theorem one_response_per_request ep req (w : World DB) :
  pool_available w = true ->
  exists response,
    sent (snd (serve ep req w)) = sent w ++ [response]
    /\ In (status response) (statuses ep)
    /\ fst (serve ep req w) = Normal tt.
Proof.
  intros Hp. destruct (accepts ep req) eqn:Hacc.
  - rewrite (serve_accepted ep req w Hp Hacc). simpl.
    eexists. split; [reflexivity|]. split; [|reflexivity].
    destruct (execute _ _ (store w)) as [[err|r] db']; simpl.
    + destruct ep; simpl; tauto.
    + destruct ep; simpl;
        repeat match goal with |- context [if ?b then _ else _] => destruct b end;
        simpl; tauto.
  - destruct (serve_rejected ep req w Hp Hacc) as [-> _]. simpl.
    eexists. split; [reflexivity|]. split; [|reflexivity].
    destruct ep; simpl; tauto.
Qed.

(** The trace of a request that executed a statement. *)
Lemma executed_interaction ep req (w : World DB) i :
  executed (snd (serve ep req w)) = executed w ++ [i] ->
  pool_available w = true
  /\ accepts ep req = true
  /\ i = mkInteraction (fst (bound_statement ep req)) (snd (bound_statement ep req))
           (fst (execute (fst (bound_statement ep req))
                   (snd (bound_statement ep req)) (store w))).
Proof.
  destruct (pool_available w) eqn:Hp.
  2:{ rewrite (serve_refused ep req w Hp). simpl.
      intros Heq. destruct (not_extended _ _ Heq). }
  destruct (accepts ep req) eqn:Hacc.
  2:{ destruct (serve_rejected ep req w Hp Hacc) as [-> _]. simpl.
      intros Heq. destruct (not_extended _ _ Heq). }
  rewrite (serve_accepted ep req w Hp Hacc). simpl.
  intros Heq. apply app_inj_tail in Heq as [_ <-]. auto.
Qed.


(** X4: a request executes at most one statement, and the connection is
    released exactly as many times as a statement was executed; it is never
    released more often than it was acquired. *)
Theorem release_follows_statement ep req (w : World DB) :
  let w' := snd (serve ep req w) in
  length (executed w) <= length (executed w') <= S (length (executed w))
  /\ released w' = released w + (length (executed w') - length (executed w))
  /\ released w' - released w <= acquired w' - acquired w.
Proof.
  cbv zeta. destruct (pool_available w) eqn:Hp.
  2:{ rewrite (serve_refused ep req w Hp). simpl. lia. }
  destruct (accepts ep req) eqn:Hacc.
  2:{ destruct (serve_rejected ep req w Hp Hacc) as [-> _]. simpl. lia. }
  rewrite (serve_accepted ep req w Hp Hacc). simpl.
  rewrite length_app. simpl. lia.
Qed.

(** X6: the statement a mutation route executes is determined by the
    request as it arrived: every company field is bound trimmed and then
    escaped, the customer code of DELETE is bound as it is, and PATCH
    always sends the update of both attribute columns. *)
Theorem executed_statement_bound ep req (w : World DB) i :
  executed (snd (serve ep req w)) = executed w ++ [i] ->
  sql i = fst (bound_statement ep req)
  /\ values i = snd (bound_statement ep req).
Proof.
  intros Hex. destruct (executed_interaction ep req w _ Hex) as [_ [_ ->]].
  split; reflexivity.
Qed.

(** X8: the pool being able to lease a connection, an attribute made of
    white-space characters only (the white space of JavaScript, U+00A0 and
    the like included) is rejected with the 400 and no statement is
    executed: the length is checked after the trim. *)
Theorem blank_attribute_rejected ep name l req (w : World DB) :
  ep <> DeleteCustomer ->
  name = "companyName" \/ name = "companyCity" ->
  Forall (fun c => In c white_space) l ->
  body req !! name = Some (fold_right String.append EmptyString l) ->
  pool_available w = true ->
  let w' := snd (serve ep req w) in
  (exists errors, errors <> []
                  /\ sent w' = sent w ++ [mkResponse 400 (Errors errors)])
  /\ executed w' = executed w
  /\ store w' = store w.
Proof.
  intros Hep Hname Hblank Hfield Hp. cbv zeta.
  assert (Hrej : accepts ep req = false).
  { assert (Hw : within 1 25 (body req !! name) = false).
    { unfold within. rewrite Hfield. simpl.
      rewrite (trim_white_space l Hblank). reflexivity. }
    destruct ep; try congruence; unfold accepts;
      destruct Hname as [-> | ->]; rewrite Hw;
      rewrite ?andb_false_r; reflexivity. }
  destruct (serve_rejected ep req w Hp Hrej) as [-> Hne]. simpl.
  split; [|split; reflexivity]. eexists. split; [exact Hne|reflexivity].
Qed.

(** X9: the statement of DELETE binds the customer code exactly as it
    arrived in the path, a string of six characters as the chain counts
    them, neither trimmed nor escaped. *)
Theorem delete_binds_raw_code req (w : World DB) i :
  executed (snd (serve DeleteCustomer req w)) = executed w ++ [i] ->
  exists code,
    params req !! "custCode" = Some code
    /\ Validator.characters code = 6
    /\ sql i = delete_sql
    /\ values i = [Some code].
Proof.
  intros Hex. destruct (executed_interaction _ req w _ Hex) as [_ [Hacc ->]].
  unfold accepts, Validator.isLength in Hacc. simpl.
  destruct (params req !! "custCode") as [code|]; [|discriminate].
  exists code. apply andb_prop in Hacc as [Hmin Hmax].
  apply Nat.leb_le in Hmin. apply Nat.leb_le in Hmax. simpl in *.
  repeat split; try reflexivity. lia.
Qed.

End AnyStore.

End Guarantees.

(** ** The statements of the routes against the tables *)

Module Engine.
Import ExpressValidator Runtime Server MariaDB Outcome Tables.

Lemma parse_insert_sql : parse insert_sql = Some (Insert []).
Proof. reflexivity. Qed.

Lemma parse_upsert : parse upsert_sql = Some (Insert [NAME; CITY]).
Proof. reflexivity. Qed.

Lemma parse_update_both_sql : parse update_both_sql = Some (Update [NAME; CITY]).
Proof. reflexivity. Qed.

Lemma parse_delete_sql : parse delete_sql = Some Delete.
Proof. reflexivity. Qed.

Lemma rewrite_rows_overwrite k n c rows :
  rewrite_rows k (assign_all [NAME; CITY] [n; c]) rows
  = Some (overwrite k n c rows, matched_rows k rows, changed_rows k n c rows).
Proof.
  unfold matched_rows, changed_rows.
  induction rows as [|r rows IH]; [reflexivity|].
  cbn [rewrite_rows]. rewrite IH. simpl.
  destruct (String.eqb (COMPANY_ID r) k); simpl; [|reflexivity].
  destruct (decide (mkCompany (COMPANY_ID r) n c = r)) as [Heq|Hne].
  - rewrite (bool_decide_eq_true_2 _ Heq). reflexivity.
  - rewrite (bool_decide_eq_false_2 _ Hne). reflexivity.
Qed.

Lemma overwrite_keys k n c rows :
  map COMPANY_ID (overwrite k n c rows) = map COMPANY_ID rows.
Proof.
  unfold overwrite. rewrite map_map. apply map_ext.
  intros r. destruct (String.eqb (COMPANY_ID r) k); reflexivity.
Qed.

Lemma overwrite_unique k n c rows :
  NoDup (map COMPANY_ID rows) -> unique_keys (overwrite k n c rows) = true.
Proof.
  intros Hnd. apply bool_decide_eq_true. rewrite overwrite_keys. exact Hnd.
Qed.

Lemma has_key_false k rows :
  has_key k rows = false <-> ~ In k (map COMPANY_ID rows).
Proof.
  unfold has_key. induction rows as [|r rows IH]; simpl; [tauto|].
  rewrite orb_false_iff, IH, String.eqb_neq. tauto.
Qed.


Lemma absent_key_untouched k n c rows :
  has_key k rows = false ->
  overwrite k n c rows = rows
  /\ matched_rows k rows = 0
  /\ changed_rows k n c rows = 0.
Proof.
  unfold has_key, overwrite, matched_rows, changed_rows.
  induction rows as [|r rows IH]; simpl; [auto|].
  intros Hk. apply orb_false_iff in Hk as [Hr Hk].
  destruct (IH Hk) as [-> [Hm Hc]]. rewrite Hr. simpl. auto.
Qed.







Lemma appended_unique k n c rows :
  NoDup (map COMPANY_ID rows) ->
  has_key k rows = false ->
  NoDup (map COMPANY_ID (rows ++ [mkCompany k n c])).
Proof.
  intros Hnd Hk. rewrite map_app. simpl. apply NoDup_app. split; [exact Hnd|].
  split.
  - intros x Hx Hx'. apply list_elem_of_In in Hx. apply list_elem_of_In in Hx'.
    destruct Hx' as [<-|[]]. apply has_key_false in Hk. tauto.
  - apply NoDup_singleton.
Qed.

(** *** What each statement does *)

Lemma insert_fresh (k : string) n c db :
  has_key k (company db) = false ->
  execute insert_sql [Some k; n; c] db
  = (inr (mkResult 1 0),
     mkDatabase (company db ++ [mkCompany k n c]) (customer db) (client_found_rows db)).
Proof.
  intros Hk. unfold execute, driver. rewrite parse_insert_sql.
  unfold run. rewrite Hk. reflexivity.
Qed.

Lemma insert_duplicate (k : string) n c db :
  has_key k (company db) = true ->
  execute insert_sql [Some k; n; c] db = (inl "ER_DUP_ENTRY", db).
Proof.
  intros Hk. unfold execute, driver. rewrite parse_insert_sql.
  unfold run. rewrite Hk. reflexivity.
Qed.

Lemma upsert_fresh (k : string) n c db :
  has_key k (company db) = false ->
  execute upsert_sql [Some k; n; c; n; c] db
  = (inr (mkResult 1 0),
     mkDatabase (company db ++ [mkCompany k n c]) (customer db) (client_found_rows db)).
Proof.
  intros Hk. unfold execute, driver. rewrite parse_upsert.
  unfold run. rewrite Hk. reflexivity.
Qed.

Lemma upsert_present (k : string) n c db :
  has_key k (company db) = true ->
  NoDup (map COMPANY_ID (company db)) ->
  execute upsert_sql [Some k; n; c; n; c] db
  = (inr (mkResult (if Nat.eqb (changed_rows k n c (company db)) 0
                    then (if client_found_rows db then 1 else 0)
                    else 2) 0),
     mkDatabase (overwrite k n c (company db)) (customer db) (client_found_rows db)).
Proof.
  intros Hk Hnd. unfold execute, driver. rewrite parse_upsert.
  unfold run. rewrite Hk, rewrite_rows_overwrite, (overwrite_unique _ _ _ _ Hnd).
  reflexivity.
Qed.

Lemma update_both (k : string) n c db :
  NoDup (map COMPANY_ID (company db)) ->
  execute update_both_sql [n; c; Some k] db
  = (inr (mkResult (if client_found_rows db
                    then matched_rows k (company db)
                    else changed_rows k n c (company db)) 0),
     mkDatabase (overwrite k n c (company db)) (customer db) (client_found_rows db)).
Proof.
  intros Hnd. unfold execute, driver. rewrite parse_update_both_sql.
  unfold run. cbn [List.last List.removelast].
  rewrite rewrite_rows_overwrite, (overwrite_unique _ _ _ _ Hnd).
  reflexivity.
Qed.

Lemma filter_bool {A} (f : A -> bool) (l : list A) :
  filter (fun x => f x) l = List.filter f l.
Proof.
  induction l as [|x l IH]; [reflexivity|].
  cbn. rewrite <- IH. destruct (f x); reflexivity.
Qed.

Lemma delete_code (code : string) db :
  execute delete_sql [Some code] db
  = (inr (mkResult (length (customer db) - length (without_code code (customer db))) 0),
     mkDatabase (company db) (without_code code (customer db)) (client_found_rows db)).
Proof.
  unfold execute, driver. rewrite parse_delete_sql.
  unfold run, without_code. rewrite filter_bool. reflexivity.
Qed.

Lemma removed_count code rows :
  Nat.eqb (length rows - length (without_code code rows)) 0 = negb (holds_code code rows).
Proof.
  unfold without_code, holds_code.
  assert (Hle : forall l : list CustomerRow,
            length (List.filter (fun r => negb (String.eqb (CUST_CODE r) code)) l)
            <= length l).
  { induction l as [|r l IH]; simpl; [lia|].
    destruct (String.eqb (CUST_CODE r) code); simpl; lia. }
  induction rows as [|r rows IH]; simpl; [reflexivity|].
  destruct (String.eqb (CUST_CODE r) code); simpl.
  - specialize (Hle rows). apply Nat.eqb_neq. lia.
  - exact IH.
Qed.

Lemma without_code_clears code rows :
  holds_code code (without_code code rows) = false.
Proof.
  unfold without_code, holds_code.
  induction rows as [|r rows IH]; simpl; [reflexivity|].
  destruct (String.eqb (CUST_CODE r) code) eqn:Hc; simpl; [exact IH|].
  rewrite Hc, IH. reflexivity.
Qed.

Lemma without_code_absent code rows :
  holds_code code rows = false -> without_code code rows = rows.
Proof.
  unfold without_code, holds_code.
  induction rows as [|r rows IH]; simpl; [reflexivity|].
  intros Hk. apply orb_false_iff in Hk as [Hr Hk].
  rewrite Hr. simpl. rewrite (IH Hk). reflexivity.
Qed.

End Engine.

(** ** The routes against the tables *)

Module Persistence.
Import ExpressValidator Runtime Server MariaDB Outcome Tables Paths Engine.



(** X10: an accepted POST whose key is not in the table, and whose
    sanitized key, name and city fit their columns, is answered 201; the
    table gains one row, last, holding the sanitized key, name and city, and
    the connection is released. *)
Theorem create_fresh_company req (w : World Database) :
  pool_available w = true ->
  accepts PostCompany req = true ->
  has_key (sanitized (body req !! "companyId")) (company (store w)) = false ->
  company_fits (sanitized (body req !! "companyId"))
               (sanitized (body req !! "companyName"))
               (sanitized (body req !! "companyCity")) ->
  let w' := snd (serve PostCompany req w) in
  sent w' = sent w ++ [mkResponse 201 (Message "Company successfully added")]
  /\ company (store w')
     = company (store w)
       ++ [mkCompany (sanitized (body req !! "companyId"))
                     (Some (sanitized (body req !! "companyName")))
                     (Some (sanitized (body req !! "companyCity")))]
  /\ customer (store w') = customer (store w)
  /\ released w' = S (released w).
Proof.
  intros Hp Hacc Hfresh Hfit. cbv zeta.
  rewrite (serve_accepted PostCompany req w Hp Hacc).
  unfold bound_statement. cbn [fst snd]. rewrite (insert_fresh _ _ _ _ Hfresh).
  simpl. repeat split; reflexivity.
Qed.

(** X11: an accepted POST whose key is already in the table is answered
    with the generic 500: the store rejects the insert, the tables are as
    they were, the error is written to the console and the connection is
    released. *)
Theorem create_existing_company req (w : World Database) :
  pool_available w = true ->
  accepts PostCompany req = true ->
  has_key (sanitized (body req !! "companyId")) (company (store w)) = true ->
  let w' := snd (serve PostCompany req w) in
  sent w' = sent w ++ [mkResponse 500 (Error "Server error")]
  /\ store w' = store w
  /\ console w' = console w ++ ["Error adding Company:"]
  /\ released w' = S (released w).
Proof.
  intros Hp Hacc Hdup. cbv zeta.
  rewrite (serve_accepted PostCompany req w Hp Hacc).
  unfold bound_statement. cbn [fst snd]. rewrite (insert_duplicate _ _ _ _ Hdup).
  simpl. repeat split; reflexivity.
Qed.


(** X13: an accepted PATCH whose key is not in the table is answered 404
    and leaves the tables unchanged. *)
Theorem patch_unknown_key req (w : World Database) :
  pool_available w = true ->
  accepts PatchCompany req = true ->
  NoDup (map COMPANY_ID (company (store w))) ->
  has_key (sanitized (params req !! "companyId")) (company (store w)) = false ->
  let w' := snd (serve PatchCompany req w) in
  sent w' = sent w ++ [mkResponse 404 (Error "Company not found")]
  /\ store w' = store w
  /\ released w' = S (released w).
Proof.
  intros Hp Hacc Hnd Hk. cbv zeta.
  rewrite (serve_accepted PatchCompany req w Hp Hacc).
  unfold bound_statement. cbn [fst snd]. rewrite (update_both _ _ _ _ Hnd).
  destruct (absent_key_untouched _ (Some (sanitized (body req !! "companyName")))
              (Some (sanitized (body req !! "companyCity"))) _ Hk) as [-> [-> ->]].
  destruct (store w) as [rows customers found]. simpl.
  destruct found; simpl; repeat split; reflexivity.
Qed.





(** X18: a DELETE whose code has six characters, as the chain counts
    them, removes every customer that has the code and
    no other, keeps the order of the rest and leaves the company table
    alone; it is answered 200 when a customer had the code and 404 when none
    had. *)
Theorem delete_customer_by_code req code (w : World Database) :
  pool_available w = true ->
  params req !! "custCode" = Some code ->
  Validator.characters code = 6 ->
  let w' := snd (serve DeleteCustomer req w) in
  customer (store w') = without_code code (customer (store w))
  /\ company (store w') = company (store w)
  /\ sent w' = sent w
               ++ [if holds_code code (customer (store w))
                   then mkResponse 200 (Message "Customer deleted successfully")
                   else mkResponse 404 (Error "Customer not found")]
  /\ released w' = S (released w).
Proof.
  intros Hp Hcode Hlen. cbv zeta.
  assert (Hacc : accepts DeleteCustomer req = true).
  { unfold accepts, Validator.isLength. rewrite Hcode. cbn [toString].
    rewrite Hlen. reflexivity. }
  rewrite (serve_accepted DeleteCustomer req w Hp Hacc).
  unfold bound_statement. cbn [fst snd]. rewrite Hcode, delete_code. simpl.
  rewrite removed_count.
  destruct (holds_code code (customer (store w))); simpl; repeat split; reflexivity.
Qed.

(** X19: a DELETE whose code has six characters, as the chain counts
    them, sent a second time is answered 404 and removes nothing more. *)
Theorem delete_twice req code (w : World Database) :
  pool_available w = true ->
  params req !! "custCode" = Some code ->
  Validator.characters code = 6 ->
  let w1 := snd (serve DeleteCustomer req w) in
  let w2 := snd (serve DeleteCustomer req w1) in
  sent w2 = sent w1 ++ [mkResponse 404 (Error "Customer not found")]
  /\ store w2 = store w1.
Proof.
  intros Hp Hcode Hlen. cbv zeta.
  assert (Hacc : accepts DeleteCustomer req = true).
  { unfold accepts, Validator.isLength. rewrite Hcode. cbn [toString].
    rewrite Hlen. reflexivity. }
  assert (Hw1 : pool_available (snd (serve DeleteCustomer req w)) = true
                /\ holds_code code (customer (store (snd (serve DeleteCustomer req w))))
                   = false).
  { rewrite (serve_accepted DeleteCustomer req w Hp Hacc).
    unfold bound_statement. cbn [fst snd]. rewrite Hcode, delete_code. simpl.
    split; [exact Hp|apply without_code_clears]. }
  destruct Hw1 as [Hp1 Hnone].
  rewrite (serve_accepted DeleteCustomer req _ Hp1 Hacc).
  unfold bound_statement. cbn [fst snd]. rewrite Hcode, delete_code. simpl.
  rewrite removed_count, Hnone, (without_code_absent _ _ Hnone). simpl.
  split; [reflexivity|].
  destruct (store (snd (serve DeleteCustomer req w))); reflexivity.
Qed.

(** X20: whatever the request and whether or not it is answered, a
    mutation route keeps the keys of the company table unique; the company
    routes never touch the customer table, DELETE never touches the company
    table, and a table only changes through the one statement of the
    request. *)
Theorem tables_invariant ep req (w : World Database) :
  NoDup (map COMPANY_ID (company (store w))) ->
  let w' := snd (serve ep req w) in
  NoDup (map COMPANY_ID (company (store w')))
  /\ (ep = DeleteCustomer -> company (store w') = company (store w))
  /\ (ep <> DeleteCustomer -> customer (store w') = customer (store w))
  /\ (executed w' = executed w -> store w' = store w).
Proof.
  intros Hnd. cbv zeta.
  destruct (pool_available w) eqn:Hp.
  2:{ rewrite (serve_refused ep req w Hp). simpl. auto. }
  destruct (accepts ep req) eqn:Hacc.
  2:{ destruct (serve_rejected ep req w Hp Hacc) as [-> _]. simpl. auto. }
  rewrite (serve_accepted ep req w Hp Hacc).
  assert (Hgrown : forall (l : list Interaction) i, l ++ [i] = l -> False).
  { intros l i Heq. symmetry in Heq. exact (Pipeline.not_extended _ _ Heq). }
  destruct ep; unfold bound_statement; cbn [fst snd].
  - destruct (has_key (sanitized (body req !! "companyId")) (company (store w)))
      eqn:Hk.
    + rewrite (insert_duplicate _ _ _ _ Hk). simpl.
      repeat split; auto; congruence.
    + rewrite (insert_fresh _ _ _ _ Hk). simpl.
      split; [apply appended_unique; assumption|].
      repeat split; try congruence; intros Heq; destruct (Hgrown _ _ Heq).
  - rewrite (update_both _ _ _ _ Hnd). simpl.
    split; [rewrite overwrite_keys; exact Hnd|].
    repeat split; try congruence; intros Heq; destruct (Hgrown _ _ Heq).
  - destruct (has_key (sanitized (params req !! "companyId")) (company (store w)))
      eqn:Hk.
    + rewrite (upsert_present _ _ _ _ Hk Hnd). simpl.
      split; [rewrite overwrite_keys; exact Hnd|].
      repeat split; try congruence; intros Heq; destruct (Hgrown _ _ Heq).
    + rewrite (upsert_fresh _ _ _ _ Hk). simpl.
      split; [apply appended_unique; assumption|].
      repeat split; try congruence; intros Heq; destruct (Hgrown _ _ Heq).
  - unfold accepts, Validator.isLength in Hacc.
    destruct (params req !! "custCode") as [code|]; [|discriminate].
    rewrite delete_code. simpl.
    repeat split; auto; try congruence; intros Heq; destruct (Hgrown _ _ Heq).
Qed.

End Persistence.

(** ** The listing routes, over any store *)

Module Listings.
Import Runtime Server Listing.

Section AnyReader.
Context {DB : Type} `{Reader DB}.

(** X21: when the pool leases a connection and the SELECT resolves, a
    listing route answers 200 with one name per row, in the order of the
    rows, under the key of the route; a row without the column gives null.
    The connection is released once. *)
Theorem listing_answers_names route (w : World DB) found db' :
  pool_available w = true ->
  select (select_text route) (store w) = (inr found, db') ->
  let sc := snd (handler route (arrive w)) in
  fst (handler route (arrive w)) = Normal tt
  /\ replies sc
     = [mkReply 200
          (Names (list_key route)
                 (map (fun row : gmap string string => row !! column route) found))]
  /\ acquired (world sc) = S (acquired w)
  /\ released (world sc) = S (released w)
  /\ store (world sc) = db'.
Proof.
  intros Hp Hsel. destruct w as [db available a r ex se co].
  simpl in Hp, Hsel. subst available. cbv zeta.
  destruct route;
    cbv [handler get_customers get_students get_foods l_try_catch_finally l_bind
         lift assign_req_db select_rows reply req_db_release arrive
         connectToDatabase try_catch pool_getConnection release
         world req_db replies selections store pool_available acquired released
         executed sent console select_text column list_key] in *;
    rewrite Hsel; simpl; repeat split; reflexivity.
Qed.

(** X22: when the SELECT is rejected, a listing route answers the 500 with
    the fixed message, writes the line of its catch clause to the console
    and releases the connection once. *)
Theorem listing_store_failure route (w : World DB) err db' :
  pool_available w = true ->
  select (select_text route) (store w) = (inl err, db') ->
  let sc := snd (handler route (arrive w)) in
  fst (handler route (arrive w)) = Normal tt
  /\ replies sc = [mkReply 500 (Failure "Internal server error")]
  /\ console (world sc) = console w ++ [fetch_log route]
  /\ acquired (world sc) = S (acquired w)
  /\ released (world sc) = S (released w).
Proof.
  intros Hp Hsel. destruct w as [db available a r ex se co].
  simpl in Hp, Hsel. subst available. cbv zeta.
  destruct route;
    cbv [handler get_customers get_students get_foods l_try_catch_finally l_bind
         lift assign_req_db select_rows reply req_db_release arrive
         connectToDatabase try_catch pool_getConnection release console_error
         world req_db replies selections store pool_available acquired released
         executed sent console select_text column list_key fetch_log] in *;
    rewrite Hsel; simpl; repeat split; reflexivity.
Qed.

(** X23: when the pool cannot lease a connection, a listing route still
    answers the 500, but its finally clause then reads [release] of a
    [req.db] that was never set: the handler ends by throwing a TypeError
    after the response.  No SELECT is run and nothing is released. *)
Theorem listing_without_connection route (w : World DB) :
  pool_available w = false ->
  let sc := snd (handler route (arrive w)) in
  fst (handler route (arrive w))
  = Throw "TypeError: Cannot read properties of undefined (reading 'release')"
  /\ replies sc = [mkReply 500 (Failure "Internal server error")]
  /\ selections sc = []
  /\ console (world sc)
     = console w ++ ["Database connection error:"] ++ [fetch_log route]
  /\ acquired (world sc) = acquired w
  /\ released (world sc) = released w
  /\ store (world sc) = store w.
Proof.
  intros Hp. destruct w as [db available a r ex se co].
  simpl in Hp. subst available. cbv zeta.
  destruct route; simpl; rewrite <- app_assoc; repeat split; reflexivity.
Qed.

End AnyReader.

End Listings.

(** ** The proxy route *)

Module Relaying.
Import Runtime Proxy.

Lemma say_chain_normal :
  say_chain
  = mkQueryChain "keyword"
      [Custom (fun v => match v with Some _ => true | None => false end)
         "keyword query parameter is missing";
       Custom (fun v => match v with Some _ => true | None => false end)
         "Keyword must be a string";
       Sanitize Validator.escape;
       Sanitize Validator.trim;
       Standard (Validator.isLength 1 100)
         "Keyword length must be between 1 and 100 characters"].
Proof. reflexivity. Qed.

(** What the chain makes of a keyword that is present. *)
Lemma present_keyword query s :
  query !! "keyword" = Some s ->
  exists query',
    run_query_chain say_chain query
    = (query',
       if Validator.isLength 1 100 (Validator.trim (Validator.escape s)) then []
       else [mkIssue "keyword" "Keyword length must be between 1 and 100 characters"
               (Some (Validator.trim (Validator.escape s)))])
    /\ query' !! "keyword" = Some (Validator.trim (Validator.escape s)).
Proof.
  intros Hs. rewrite say_chain_normal. unfold run_query_chain. simpl.
  rewrite Hs. simpl.
  destruct (Validator.isLength 1 100 (Validator.trim (Validator.escape s)));
    destruct (decide (Some s = Some (Validator.trim (Validator.escape s))))
      as [Heq|Hne];
    eexists; (split; [reflexivity|]);
    first [ rewrite Hs; exact Heq | apply lookup_insert_eq ].
Qed.

(** X24: a request to /say without the keyword is answered 400 with three
    entries, in the order of the chain: the keyword is missing, it is not a
    string, and its length is out of bounds.  The function is not called. *)
Theorem say_missing_keyword query net :
  query !! "keyword" = None ->
  say query net
  = (Normal tt,
     mkNet (upstream net) (calls net)
       (answers net
        ++ [mkAnswer 400
              (Issues
                 [mkIssue "keyword" "keyword query parameter is missing" None;
                  mkIssue "keyword" "Keyword must be a string" None;
                  mkIssue "keyword"
                    "Keyword length must be between 1 and 100 characters"
                    (Some EmptyString)])])
       (lines net)).
Proof.
  intros Hnone. unfold say. rewrite say_chain_normal.
  unfold run_query_chain. simpl. rewrite Hnone. simpl.
  destruct (decide (None = Some EmptyString)); [discriminate|]. reflexivity.
Qed.

(** X25: the keyword is escaped first and trimmed after, and the bound of
    1 to 100 characters applies to the result: a keyword whose escaped and
    trimmed text is out of bounds is answered 400 with the one entry for the
    length, and the function is not called. *)
Theorem say_length_rejected query net s :
  query !! "keyword" = Some s ->
  Validator.isLength 1 100 (Validator.trim (Validator.escape s)) = false ->
  say query net
  = (Normal tt,
     mkNet (upstream net) (calls net)
       (answers net
        ++ [mkAnswer 400
              (Issues
                 [mkIssue "keyword"
                    "Keyword length must be between 1 and 100 characters"
                    (Some (Validator.trim (Validator.escape s)))])])
       (lines net)).
Proof.
  intros Hs Hlen. unfold say.
  destruct (present_keyword query s Hs) as [query' [-> _]].
  rewrite Hlen. reflexivity.
Qed.

(** X26: a keyword within bounds is forwarded once, escaped and trimmed,
    as the parameter of the function; when the function resolves, the
    answer is 200 with its data under the key response. *)
Theorem say_relays query net s data :
  query !! "keyword" = Some s ->
  Validator.isLength 1 100 (Validator.trim (Validator.escape s)) = true ->
  upstream net (Some (Validator.trim (Validator.escape s))) = inr data ->
  say query net
  = (Normal tt,
     mkNet (upstream net)
       (calls net ++ [Some (Validator.trim (Validator.escape s))])
       (answers net ++ [mkAnswer 200 (Relay data)])
       (lines net)).
Proof.
  intros Hs Hlen Hup. unfold say.
  destruct (present_keyword query s Hs) as [query' [-> Hk]].
  rewrite Hlen, Hk, Hup. reflexivity.
Qed.

(** X27: when the function rejects, the route sends no response at all:
    the catch clause writes one line to the console and the handler ends. *)
Theorem say_upstream_failure_unanswered query net s message :
  query !! "keyword" = Some s ->
  Validator.isLength 1 100 (Validator.trim (Validator.escape s)) = true ->
  upstream net (Some (Validator.trim (Validator.escape s))) = inl message ->
  fst (say query net) = Normal tt
  /\ answers (snd (say query net)) = answers net
  /\ calls (snd (say query net))
     = calls net ++ [Some (Validator.trim (Validator.escape s))]
  /\ lines (snd (say query net)) = lines net ++ ["Error calling function:"].
Proof.
  intros Hs Hlen Hup. unfold say.
  destruct (present_keyword query s Hs) as [query' [-> Hk]].
  rewrite Hlen, Hk, Hup. simpl. repeat split; reflexivity.
Qed.

End Relaying.

(** ** The statements above at the sample requests *)

Module Checks.
Import ExpressValidator Runtime Server MariaDB Deployment Outcome Tables Samples.

(** C7 at four requests: the PATCH of the stored key and of an unknown
    key, the DELETE of a stored code and of an unknown code. *)
Lemma keyed_mutation_answer_at_samples :
  (pool_available acme_world = true
   /\ snd (run_chains (chains_of PatchCompany) move_acme) = []
   /\ execute (fst (bound_statement PatchCompany move_acme))
        (snd (bound_statement PatchCompany move_acme)) (store acme_world)
      = (inr (mkResult 1 0),
         mkDatabase [mkCompany "C1" (Some "Acme Corp") (Some "Boston")] [] true)
   /\ sent (snd (serve PatchCompany move_acme acme_world))
      = [mkResponse 200 (Message "Company updated successfully")])
  /\ (pool_available clients_world = true
      /\ snd (run_chains (chains_of PatchCompany) move_initech) = []
      /\ execute (fst (bound_statement PatchCompany move_initech))
           (snd (bound_statement PatchCompany move_initech)) (store clients_world)
         = (inr (mkResult 0 0), store clients_world)
      /\ sent (snd (serve PatchCompany move_initech clients_world))
         = [mkResponse 404 (Error "Company not found")])
  /\ (snd (run_chains (chains_of DeleteCustomer) delete_holmes) = []
      /\ execute (fst (bound_statement DeleteCustomer delete_holmes))
           (snd (bound_statement DeleteCustomer delete_holmes)) (store clients_world)
         = (inr (mkResult 1 0), mkDatabase [acme] [micheal] true)
      /\ sent (snd (serve DeleteCustomer delete_holmes clients_world))
         = [mkResponse 200 (Message "Customer deleted successfully")])
  /\ (snd (run_chains (chains_of DeleteCustomer) delete_nobody) = []
      /\ execute (fst (bound_statement DeleteCustomer delete_nobody))
           (snd (bound_statement DeleteCustomer delete_nobody)) (store clients_world)
         = (inr (mkResult 0 0), store clients_world)
      /\ sent (snd (serve DeleteCustomer delete_nobody clients_world))
         = [mkResponse 404 (Error "Customer not found")]).
Proof.
  assert (Hp1 : pool_available acme_world = true) by reflexivity.
  assert (Hp2 : pool_available clients_world = true) by reflexivity.
  assert (Hv1 : snd (run_chains (chains_of PatchCompany) move_acme) = [])
    by (vm_compute; reflexivity).
  assert (Hv2 : snd (run_chains (chains_of PatchCompany) move_initech) = [])
    by (vm_compute; reflexivity).
  assert (Hv3 : snd (run_chains (chains_of DeleteCustomer) delete_holmes) = [])
    by (vm_compute; reflexivity).
  assert (Hv4 : snd (run_chains (chains_of DeleteCustomer) delete_nobody) = [])
    by (vm_compute; reflexivity).
  assert (He1 : execute (fst (bound_statement PatchCompany move_acme))
                  (snd (bound_statement PatchCompany move_acme)) (store acme_world)
                = (inr (mkResult 1 0),
                   mkDatabase [mkCompany "C1" (Some "Acme Corp") (Some "Boston")] []
                     true)) by (vm_compute; reflexivity).
  assert (He2 : execute (fst (bound_statement PatchCompany move_initech))
                  (snd (bound_statement PatchCompany move_initech))
                  (store clients_world)
                = (inr (mkResult 0 0), store clients_world))
    by (vm_compute; reflexivity).
  assert (He3 : execute (fst (bound_statement DeleteCustomer delete_holmes))
                  (snd (bound_statement DeleteCustomer delete_holmes))
                  (store clients_world)
                = (inr (mkResult 1 0), mkDatabase [acme] [micheal] true))
    by (vm_compute; reflexivity).
  assert (He4 : execute (fst (bound_statement DeleteCustomer delete_nobody))
                  (snd (bound_statement DeleteCustomer delete_nobody))
                  (store clients_world)
                = (inr (mkResult 0 0), store clients_world))
    by (vm_compute; reflexivity).
  split; [|split; [|split]].
  - do 3 (split; [assumption|]).
    exact (proj2 (proj2 (Reconciliation.keyed_mutation_answer PatchCompany move_acme
                           acme_world _ _ (or_introl eq_refl) Hp1 Hv1 He1))).
  - do 3 (split; [assumption|]).
    exact (proj2 (proj2 (Reconciliation.keyed_mutation_answer PatchCompany move_initech
                           clients_world _ _ (or_introl eq_refl) Hp2 Hv2 He2))).
  - do 2 (split; [assumption|]).
    exact (proj2 (proj2 (Reconciliation.keyed_mutation_answer DeleteCustomer
                           delete_holmes clients_world _ _ (or_intror eq_refl)
                           Hp2 Hv3 He3))).
  - do 2 (split; [assumption|]).
    exact (proj2 (proj2 (Reconciliation.keyed_mutation_answer DeleteCustomer
                           delete_nobody clients_world _ _ (or_intror eq_refl)
                           Hp2 Hv4 He4))).
Defined.

(** The upsert of C1 while the pool is stalled gets no response. *)
Lemma refused_request_unanswered_at_stalled :
  pool_available stalled_world = false
  /\ fst (serve PutCompany put_acme stalled_world) = Throw "Internal server error"
  /\ sent (snd (serve PutCompany put_acme stalled_world)) = [].
Proof.
  assert (Hp : pool_available stalled_world = false) by reflexivity.
  split; [exact Hp|].
  destruct (Guarantees.refused_request_unanswered PutCompany put_acme stalled_world Hp)
    as [Hc [Hs _]].
  split; [exact Hc|exact Hs].
Defined.

(** The PATCH of C1 gets one response, a 200. *)
Lemma one_response_per_request_at_move_acme :
  pool_available acme_world = true
  /\ exists response,
       sent (snd (serve PatchCompany move_acme acme_world)) = sent acme_world ++ [response]
       /\ In (status response) (statuses PatchCompany)
       /\ fst (serve PatchCompany move_acme acme_world) = Normal tt.
Proof.
  assert (Hp : pool_available acme_world = true) by reflexivity.
  split; [exact Hp|].
  exact (Guarantees.one_response_per_request PatchCompany move_acme acme_world Hp).
Defined.


(** The PATCH of C1 binds the new name, the new city and the key. *)
Lemma executed_statement_bound_at_move_acme :
  let i := mkInteraction update_both_sql [Some "Acme Corp"; Some "Boston"; Some "C1"]
             (inr (mkResult 1 0)) in
  executed (snd (serve PatchCompany move_acme acme_world)) = executed acme_world ++ [i]
  /\ sql i = fst (bound_statement PatchCompany move_acme)
  /\ values i = snd (bound_statement PatchCompany move_acme).
Proof.
  cbv zeta.
  assert (Hex : executed (snd (serve PatchCompany move_acme acme_world))
                = executed acme_world
                  ++ [mkInteraction update_both_sql
                        [Some "Acme Corp"; Some "Boston"; Some "C1"]
                        (inr (mkResult 1 0))]) by (vm_compute; reflexivity).
  split; [exact Hex|].
  exact (Guarantees.executed_statement_bound PatchCompany move_acme acme_world _ Hex).
Defined.

(** The PATCH of C1 with a name made of a space and U+00A0 is rejected. *)
Lemma blank_attribute_rejected_at_blank_wide :
  PatchCompany <> DeleteCustomer
  /\ ("companyName" = "companyName" \/ "companyName" = "companyCity")
  /\ Forall (fun c => In c white_space) blank_pair
  /\ body blank_wide !! "companyName"
     = Some (fold_right String.append EmptyString blank_pair)
  /\ pool_available clients_world = true
  /\ executed (snd (serve PatchCompany blank_wide clients_world)) = []
  /\ store (snd (serve PatchCompany blank_wide clients_world)) = store clients_world.
Proof.
  assert (Hep : PatchCompany <> DeleteCustomer) by discriminate.
  assert (Hname : "companyName" = "companyName" \/ "companyName" = "companyCity")
    by (left; reflexivity).
  assert (Hblank : Forall (fun c => In c white_space) blank_pair)
    by (repeat constructor; vm_compute; tauto).
  assert (Hfield : body blank_wide !! "companyName"
                   = Some (fold_right String.append EmptyString blank_pair))
    by (vm_compute; reflexivity).
  assert (Hp : pool_available clients_world = true) by reflexivity.
  do 5 (split; [assumption|]).
  destruct (Guarantees.blank_attribute_rejected PatchCompany "companyName" blank_pair
              blank_wide clients_world Hep Hname Hblank Hfield Hp) as [_ [Hex Hst]].
  split; [exact Hex|exact Hst].
Defined.

(** The DELETE of C00013 binds the code as it came. *)
Lemma delete_binds_raw_code_at_holmes :
  let i := mkInteraction delete_sql [Some "C00013"] (inr (mkResult 1 0)) in
  executed (snd (serve DeleteCustomer delete_holmes clients_world))
  = executed clients_world ++ [i]
  /\ exists code,
       params delete_holmes !! "custCode" = Some code
       /\ Validator.characters code = 6
       /\ sql i = delete_sql
       /\ values i = [Some code].
Proof.
  cbv zeta.
  assert (Hex : executed (snd (serve DeleteCustomer delete_holmes clients_world))
                = executed clients_world
                  ++ [mkInteraction delete_sql [Some "C00013"] (inr (mkResult 1 0))])
    by (vm_compute; reflexivity).
  split; [exact Hex|].
  exact (Guarantees.delete_binds_raw_code delete_holmes clients_world _ Hex).
Defined.

(** The POST of Globex under the fresh key C2. *)
Lemma create_fresh_company_at_globex :
  pool_available clients_world = true
  /\ accepts PostCompany post_globex = true
  /\ has_key (sanitized (body post_globex !! "companyId")) (company (store clients_world))
     = false
  /\ company_fits (sanitized (body post_globex !! "companyId"))
       (sanitized (body post_globex !! "companyName"))
       (sanitized (body post_globex !! "companyCity"))
  /\ sent (snd (serve PostCompany post_globex clients_world))
     = [mkResponse 201 (Message "Company successfully added")]
  /\ company (store (snd (serve PostCompany post_globex clients_world)))
     = [acme; mkCompany "C2" (Some "Globex &lt;Inc&gt;") (Some "Springfield")].
Proof.
  assert (Hp : pool_available clients_world = true) by reflexivity.
  assert (Hacc : accepts PostCompany post_globex = true) by (vm_compute; reflexivity).
  assert (Hk : has_key (sanitized (body post_globex !! "companyId"))
                 (company (store clients_world)) = false) by (vm_compute; reflexivity).
  assert (Hfit : company_fits (sanitized (body post_globex !! "companyId"))
                  (sanitized (body post_globex !! "companyName"))
                  (sanitized (body post_globex !! "companyCity")))
    by (repeat split; vm_compute; lia).
  do 4 (split; [assumption|]).
  destruct (Persistence.create_fresh_company post_globex clients_world Hp Hacc Hk Hfit)
    as [Hs [Hc _]].
  split; [exact Hs|]. rewrite Hc. vm_compute. reflexivity.
Defined.

(** The POST of the stored key C1. *)
Lemma create_existing_company_at_acme :
  pool_available clients_world = true
  /\ accepts PostCompany post_acme = true
  /\ has_key (sanitized (body post_acme !! "companyId")) (company (store clients_world))
     = true
  /\ sent (snd (serve PostCompany post_acme clients_world))
     = [mkResponse 500 (Error "Server error")]
  /\ store (snd (serve PostCompany post_acme clients_world)) = store clients_world.
Proof.
  assert (Hp : pool_available clients_world = true) by reflexivity.
  assert (Hacc : accepts PostCompany post_acme = true) by (vm_compute; reflexivity).
  assert (Hk : has_key (sanitized (body post_acme !! "companyId"))
                 (company (store clients_world)) = true) by (vm_compute; reflexivity).
  do 3 (split; [assumption|]).
  destruct (Persistence.create_existing_company post_acme clients_world Hp Hacc Hk)
    as [Hs [Hst _]].
  split; [exact Hs|exact Hst].
Defined.


(** The PATCH of the unknown key C9. *)
Lemma patch_unknown_key_at_initech :
  pool_available clients_world = true
  /\ accepts PatchCompany move_initech = true
  /\ NoDup (map COMPANY_ID (company (store clients_world)))
  /\ has_key (sanitized (params move_initech !! "companyId"))
       (company (store clients_world)) = false
  /\ sent (snd (serve PatchCompany move_initech clients_world))
     = [mkResponse 404 (Error "Company not found")]
  /\ store (snd (serve PatchCompany move_initech clients_world)) = store clients_world.
Proof.
  assert (Hp : pool_available clients_world = true) by reflexivity.
  assert (Hacc : accepts PatchCompany move_initech = true) by (vm_compute; reflexivity).
  assert (Hnd : NoDup (map COMPANY_ID (company (store clients_world))))
    by (apply (bool_decide_unpack _); vm_compute; exact I).
  assert (Hk : has_key (sanitized (params move_initech !! "companyId"))
                 (company (store clients_world)) = false) by (vm_compute; reflexivity).
  do 4 (split; [assumption|]).
  destruct (Persistence.patch_unknown_key move_initech clients_world Hp Hacc Hnd Hk)
    as [Hs [Hst _]].
  split; [exact Hs|exact Hst].
Defined.





(** The DELETE of C00013. *)
Lemma delete_customer_by_code_at_holmes :
  pool_available clients_world = true
  /\ params delete_holmes !! "custCode" = Some "C00013"
  /\ Validator.characters "C00013" = 6
  /\ customer (store (snd (serve DeleteCustomer delete_holmes clients_world))) = [micheal]
  /\ sent (snd (serve DeleteCustomer delete_holmes clients_world))
     = [mkResponse 200 (Message "Customer deleted successfully")].
Proof.
  assert (Hp : pool_available clients_world = true) by reflexivity.
  assert (Hc : params delete_holmes !! "custCode" = Some "C00013")
    by (vm_compute; reflexivity).
  assert (Hl : Validator.characters "C00013" = 6) by reflexivity.
  do 3 (split; [assumption|]).
  destruct (Persistence.delete_customer_by_code delete_holmes "C00013" clients_world
              Hp Hc Hl) as [Hcust [_ [Hs _]]].
  split; [rewrite Hcust|rewrite Hs]; vm_compute; reflexivity.
Defined.

(** The DELETE of C00013 sent twice. *)
Lemma delete_twice_at_holmes :
  pool_available clients_world = true
  /\ params delete_holmes !! "custCode" = Some "C00013"
  /\ Validator.characters "C00013" = 6
  /\ sent (snd (serve DeleteCustomer delete_holmes
                  (snd (serve DeleteCustomer delete_holmes clients_world))))
     = sent (snd (serve DeleteCustomer delete_holmes clients_world))
       ++ [mkResponse 404 (Error "Customer not found")].
Proof.
  assert (Hp : pool_available clients_world = true) by reflexivity.
  assert (Hc : params delete_holmes !! "custCode" = Some "C00013")
    by (vm_compute; reflexivity).
  assert (Hl : Validator.characters "C00013" = 6) by reflexivity.
  do 3 (split; [assumption|]).
  exact (proj1 (Persistence.delete_twice delete_holmes "C00013" clients_world Hp Hc Hl)).
Defined.

(** The PUT of C1 keeps the keys unique. *)
Lemma tables_invariant_at_move_acme :
  NoDup (map COMPANY_ID (company (store acme_world)))
  /\ NoDup (map COMPANY_ID (company (store (snd (serve PutCompany move_acme acme_world))))).
Proof.
  assert (Hnd : NoDup (map COMPANY_ID (company (store acme_world))))
    by (apply (bool_decide_unpack _); vm_compute; exact I).
  split; [exact Hnd|].
  exact (proj1 (Persistence.tables_invariant PutCompany move_acme acme_world Hnd)).
Defined.

(** GET /api/customers over the sample catalog: a name and a null. *)
Lemma listing_answers_names_at_customers :
  pool_available (Listing.sample_world true) = true
  /\ Listing.select (Listing.select_text Listing.Customers)
       (store (Listing.sample_world true))
     = (inr [Listing.name_row "CUST_NAME" (Some "Holmes");
             Listing.name_row "CUST_NAME" None], Listing.sample_catalog)
  /\ Listing.replies
       (snd (Listing.handler Listing.Customers
               (Listing.arrive (Listing.sample_world true))))
     = [Listing.mkReply 200 (Listing.Names "customerList" [Some "Holmes"; None])].
Proof.
  assert (Hp : pool_available (Listing.sample_world true) = true) by reflexivity.
  assert (Hsel : Listing.select (Listing.select_text Listing.Customers)
                   (store (Listing.sample_world true))
                 = (inr [Listing.name_row "CUST_NAME" (Some "Holmes");
                         Listing.name_row "CUST_NAME" None], Listing.sample_catalog))
    by reflexivity.
  do 2 (split; [assumption|]).
  destruct (Listings.listing_answers_names Listing.Customers
              (Listing.sample_world true) _ _ Hp Hsel) as [_ [Hr _]].
  rewrite Hr. vm_compute. reflexivity.
Defined.

(** GET /api/students over a store that rejects every SELECT. *)
Lemma listing_store_failure_at_lost :
  pool_available lost_world = true
  /\ @Listing.select unit lost_reader (Listing.select_text Listing.Students)
       (store lost_world) = (inl "ER_CONNECTION_LOST", tt)
  /\ Listing.replies
       (snd (@Listing.handler unit lost_reader Listing.Students
               (Listing.arrive lost_world)))
     = [Listing.mkReply 500 (Listing.Failure "Internal server error")].
Proof.
  assert (Hp : pool_available lost_world = true) by reflexivity.
  assert (Hsel : @Listing.select unit lost_reader (Listing.select_text Listing.Students)
                   (store lost_world) = (inl "ER_CONNECTION_LOST", tt)) by reflexivity.
  do 2 (split; [assumption|]).
  exact (proj1 (proj2 (@Listings.listing_store_failure unit lost_reader Listing.Students
                         lost_world _ _ Hp Hsel))).
Defined.

(** GET /api/foods while the pool is stalled. *)
Lemma listing_without_connection_at_foods :
  pool_available (Listing.sample_world false) = false
  /\ fst (Listing.handler Listing.Foods (Listing.arrive (Listing.sample_world false)))
     = Throw "TypeError: Cannot read properties of undefined (reading 'release')"
  /\ Listing.replies
       (snd (Listing.handler Listing.Foods (Listing.arrive (Listing.sample_world false))))
     = [Listing.mkReply 500 (Listing.Failure "Internal server error")].
Proof.
  assert (Hp : pool_available (Listing.sample_world false) = false) by reflexivity.
  split; [exact Hp|].
  destruct (Listings.listing_without_connection Listing.Foods
              (Listing.sample_world false) Hp) as [Hc [Hr _]].
  split; [exact Hc|exact Hr].
Defined.

(** GET /say without a query. *)
Lemma say_missing_keyword_at_empty :
  (∅ : gmap string string) !! "keyword" = None
  /\ Proxy.calls (snd (Proxy.say ∅ Proxy.echo_net)) = []
  /\ length (Proxy.answers (snd (Proxy.say ∅ Proxy.echo_net))) = 1.
Proof.
  assert (Hnone : (∅ : gmap string string) !! "keyword" = None) by reflexivity.
  split; [exact Hnone|].
  rewrite (Relaying.say_missing_keyword ∅ Proxy.echo_net Hnone).
  split; reflexivity.
Defined.

(** GET /say with 26 opening brackets: 104 characters once escaped. *)
Lemma say_length_rejected_at_brackets :
  say_brackets !! "keyword" = Some "<<<<<<<<<<<<<<<<<<<<<<<<<<"
  /\ Validator.isLength 1 100
       (Validator.trim (Validator.escape "<<<<<<<<<<<<<<<<<<<<<<<<<<")) = false
  /\ Proxy.calls (snd (Proxy.say say_brackets Proxy.echo_net)) = []
  /\ length (Proxy.answers (snd (Proxy.say say_brackets Proxy.echo_net))) = 1.
Proof.
  assert (Hs : say_brackets !! "keyword" = Some "<<<<<<<<<<<<<<<<<<<<<<<<<<")
    by (vm_compute; reflexivity).
  assert (Hlen : Validator.isLength 1 100
                   (Validator.trim (Validator.escape "<<<<<<<<<<<<<<<<<<<<<<<<<<"))
                 = false) by (vm_compute; reflexivity).
  do 2 (split; [assumption|]).
  rewrite (Relaying.say_length_rejected say_brackets Proxy.echo_net _ Hs Hlen).
  split; reflexivity.
Defined.

(** GET /say with a keyword in brackets and spaces, the function echoing. *)
Lemma say_relays_at_hello :
  say_hello !! "keyword" = Some " <hello> "
  /\ Validator.isLength 1 100 (Validator.trim (Validator.escape " <hello> ")) = true
  /\ Proxy.upstream Proxy.echo_net (Some (Validator.trim (Validator.escape " <hello> ")))
     = inr "&lt;hello&gt;"
  /\ Proxy.answers (snd (Proxy.say say_hello Proxy.echo_net))
     = [Proxy.mkAnswer 200 (Proxy.Relay "&lt;hello&gt;")].
Proof.
  assert (Hs : say_hello !! "keyword" = Some " <hello> ") by (vm_compute; reflexivity).
  assert (Hlen : Validator.isLength 1 100
                   (Validator.trim (Validator.escape " <hello> ")) = true)
    by (vm_compute; reflexivity).
  assert (Hup : Proxy.upstream Proxy.echo_net
                  (Some (Validator.trim (Validator.escape " <hello> ")))
                = inr "&lt;hello&gt;") by (vm_compute; reflexivity).
  do 3 (split; [assumption|]).
  rewrite (Relaying.say_relays say_hello Proxy.echo_net _ _ Hs Hlen Hup).
  reflexivity.
Defined.

(** GET /say with the same keyword, the function down. *)
Lemma say_upstream_failure_unanswered_at_down :
  say_hello !! "keyword" = Some " <hello> "
  /\ Validator.isLength 1 100 (Validator.trim (Validator.escape " <hello> ")) = true
  /\ Proxy.upstream Proxy.down_net (Some (Validator.trim (Validator.escape " <hello> ")))
     = inl "Request failed with status code 503"
  /\ Proxy.answers (snd (Proxy.say say_hello Proxy.down_net)) = [].
Proof.
  assert (Hs : say_hello !! "keyword" = Some " <hello> ") by (vm_compute; reflexivity).
  assert (Hlen : Validator.isLength 1 100
                   (Validator.trim (Validator.escape " <hello> ")) = true)
    by (vm_compute; reflexivity).
  assert (Hup : Proxy.upstream Proxy.down_net
                  (Some (Validator.trim (Validator.escape " <hello> ")))
                = inl "Request failed with status code 503") by reflexivity.
  do 3 (split; [assumption|]).
  exact (proj1 (proj2 (Relaying.say_upstream_failure_unanswered say_hello Proxy.down_net
                         _ _ Hs Hlen Hup))).
Defined.

End Checks.
